(** * MICROPEN maintenance info bot: the scheduled [run] of the worker

    A shallow embedding of [run] (the latest variant of the worker) and of
    the JavaScript primitives it relies on, followed by the properties of
    the filter / dedup / formatting pipeline.

    Modelling conventions.
    - JS strings are [string]s.  Every string operation of the source
      ([split], [join], [includes], [replace], [===]) compares code units
      only, and the separators used (comma, slash) are ASCII, so reading a
      string as its UTF-8 bytes changes none of the results.
    - [entry.published] is an integral epoch-millisecond number, a [Z];
      template interpolation prints it in decimal.
    - [undefined] / [null] are [None].
    - The KV namespace is a [gmap string string].
    - Arrays are mutable objects: they live in a heap indexed by location,
      so that two variables bound to one array really share it.
    - Everything the worker gets from outside (HEAD probes, the feed, the
      detail pages, the clock, the notes API) is an oracle of the run; a
      rejected promise is [None].  KV operations are taken to succeed. *)

From Stdlib Require Import Ascii DecimalString DecimalPos DecimalZ.
From stdpp Require Import gmap strings list fin_maps.

#[local] Set Warnings "-clear-no-such-hyp".

Open Scope string_scope.
Open Scope Z_scope.
Open Scope list_scope.

(** ** JavaScript string primitives *)

Module Js.

(** [s.startsWith(p)] *)
Fixpoint startsWith (s p : string) : bool :=
  match p, s with
  | EmptyString, _ => true
  | String _ _, EmptyString => false
  | String a p', String b s' => if Ascii.eqb a b then startsWith s' p' else false
  end.

(** [s.includes(p)]: [p] occurs in [s] at some position. *)
Fixpoint includes (s p : string) : bool :=
  startsWith s p ||
  match s with
  | EmptyString => false
  | String _ s' => includes s' p
  end.

(** [s.split(sep)] for a one-character separator.  The result is never
    empty: splitting the empty string gives one empty piece. *)
Fixpoint split (sep : ascii) (s : string) : list string :=
  match s with
  | EmptyString => [EmptyString]
  | String c s' =>
      if Ascii.eqb c sep then EmptyString :: split sep s'
      else match split sep s' with
           | [] => [String c EmptyString]
           | w :: ws => String c w :: ws
           end
  end.

(** [a.join(sep)] *)
Fixpoint join (sep : string) (a : list string) : string :=
  match a with
  | [] => EmptyString
  | [x] => x
  | x :: a' => x +:+ sep +:+ join sep a'
  end.

(** [s.replace(pat, by)] with a string pattern: the first occurrence only. *)
Fixpoint replace (pat by_ s : string) : string :=
  if startsWith s pat then by_ +:+ String.substring (String.length pat) (String.length s - String.length pat)%nat s
  else match s with
       | EmptyString => EmptyString
       | String c s' => String c (replace pat by_ s')
       end.

(** [`${n}`] for an integral number. *)
Definition number_to_string (n : Z) : string :=
  NilZero.string_of_int (Z.to_int n).

(** [`${v}`] for a possibly undefined string. *)
Definition template (v : option string) : string :=
  match v with
  | Some s => s
  | None => "undefined"
  end.

(** [a.pop()] read-only use: the last element, [undefined] on []. *)
Definition pop (a : list string) : option string := last a.

End Js.

(** ** Data model *)

(** The bindings of the worker ([Env]).  The two flags are read for their
    truthiness only. *)
Record Env := {
  SERVICE_HOST : string;
  STATUS_PAGE_HOST : string;
  PROCESSED_ENTRIES_KV_KEY : string;
  SERVICE_NAME : string;
  PLATFORM_NAME : string;
  MISSKEY_API_TOKEN : string;
  TEST_MODE : bool;
  ALLOW_EXEC_VIA_HTTP : bool
}.

(** [FeedEntry] of types.d.ts; the fields [run] never reads are left out. *)
Record FeedEntry := {
  title : string;
  description : string;
  link : string;
  published : Z
}.

#[global] Instance FeedEntry_eq_dec : EqDecision FeedEntry.
Proof. solve_decision. Defined.

(** What [run] uses of a parsed document: its elements in document order,
    each with its class names and its text content. *)
Record Element := {
  className : list string;
  textContent : string
}.

Definition Document := list Element.

Definition getElementsByClassName (c : string) (dom : Document) : list Element :=
  filter (fun el => c ∈ className el) dom.

(** The outside world of one run.  [None] is a rejected promise. *)
Record World := {
  head_ok : string -> option bool;
  rss_items : string -> option (list FeedEntry);
  page_text : string -> option string;
  parseFromString : string -> Document;
  clock : nat -> Z;
  notes_create : string -> option string
}.

(** Observable effects.  [EvCompose] is a label, not an effect: it marks
    the point where the callback of [entry] has built its message. *)
Inductive Event :=
| EvHead (url : string)
| EvLog (msg : string)
| EvKvGet (key : string)
| EvKvPut (key value : string)
| EvKvDelete (key : string)
| EvParse (url : string)
| EvFetch (url : string)
| EvCompose (entry : FeedEntry) (message : string)
| EvPost (entry : FeedEntry) (text : string).

#[global] Instance Event_eq_dec : EqDecision Event.
Proof. solve_decision. Defined.

Definition loc := nat.

(** The mutable state: the KV namespace, the heap of arrays and the number
    of clock readings made so far. *)
Record State := {
  kv : gmap string string;
  heap : gmap loc (list string);
  ticks : nat
}.

Definition set_kv (f : gmap string string -> gmap string string) (s : State) : State :=
  {| kv := f (kv s); heap := heap s; ticks := ticks s |}.
Definition set_heap (f : gmap loc (list string) -> gmap loc (list string)) (s : State) : State :=
  {| kv := kv s; heap := f (heap s); ticks := ticks s |}.
Definition tick (s : State) : State :=
  {| kv := kv s; heap := heap s; ticks := S (ticks s) |}.

(** ** The monad of the worker: state, exceptions and an event log *)

Inductive Res (A : Type) :=
| Ok (a : A)
| Throw.
Arguments Ok {A} a.
Arguments Throw {A}.

Definition M (A : Type) : Type := State -> Res A * State * list Event.

#[global] Instance M_ret : MRet M := fun A a s => (Ok a, s, []).

#[global] Instance M_bind : MBind M := fun A B k m s =>
  match m s with
  | (Ok a, s1, ev1) => match k a s1 with (r, s2, ev2) => (r, s2, ev1 ++ ev2) end
  | (Throw, s1, ev1) => (Throw, s1, ev1)
  end.

Definition emit (e : Event) : M unit := fun s => (Ok tt, s, [e]).

(** A promise that settles with [o], announced by [e]. *)
Definition settle {A} (e : Event) (o : option A) : M A := fun s =>
  (match o with Some a => Ok a | None => Throw end, s, [e]).

(** [filter] with an effectful callback, called on the items in order. *)
Fixpoint array_filter {A} (cb : A -> M bool) (items : list A) : M (list A) :=
  match items with
  | [] => mret []
  | a :: items' =>
      b ← cb a;
      r ← array_filter cb items';
      mret (if b : bool then a :: r else r)
  end.

(** [Promise.all(items.map(cb))]: every callback runs whatever happens to
    the others; the result is the list of values, in the order of the
    callbacks, when all fulfil and a rejection otherwise.  The log lists the
    effects callback by callback.  That is one linearisation only: the real
    promises are all started first and then advance in the order in which
    their awaits settle, so the real log is some reordering of this one.
    The values, and which effects occur, are those of the code; the
    relative order of the effects of different callbacks is not. *)
Fixpoint promise_all_map {A B} (cb : A -> M B) (items : list A) : M (list B) :=
  match items with
  | [] => mret []
  | a :: items' => fun s =>
      match cb a s with
      | (r, s1, ev1) =>
          match promise_all_map cb items' s1 with
          | (rs, s2, ev2) =>
              (match r, rs with
               | Ok b, Ok bs => Ok (b :: bs)
               | _, _ => Throw
               end, s2, ev1 ++ ev2)
          end
      end
  end.

(** ** The worker *)

Section Worker.

Variable env : Env.
Variable world : World.

(** *** Calls to the outside *)

(** [(await fetch(url, { method: 'HEAD' })).ok] *)
Definition fetch_head (url : string) : M bool :=
  settle (EvHead url) (head_ok world url).

(** [(await parse(url)).items] *)
Definition parse (url : string) : M (list FeedEntry) :=
  settle (EvParse url) (rss_items world url).

(** [await (await fetch(url)).text()] *)
Definition fetch_text (url : string) : M string :=
  settle (EvFetch url) (page_text world url).

(** [misskey.request('notes/create', { text, visibility: 'home' })],
    called from the callback of [entry]. *)
Definition misskey_request_notes_create (entry : FeedEntry) (text : string) : M string :=
  settle (EvPost entry text) (notes_create world text).

Definition console_log (msg : string) : M unit := emit (EvLog msg).

(** [Date.now()] *)
Definition Date_now : M Z := fun s => (Ok (clock world (ticks s)), tick s, []).

(** [env.INFOBOT_KV.get / put / delete] *)
Definition kv_get (key : string) : M (option string) := fun s =>
  (Ok (kv s !! key), s, [EvKvGet key]).
Definition kv_put (key value : string) : M unit := fun s =>
  (Ok tt, set_kv (insert key value) s, [EvKvPut key value]).
Definition kv_delete (key : string) : M unit := fun s =>
  (Ok tt, set_kv (delete key) s, [EvKvDelete key]).

(** *** Arrays on the heap *)

(** A fresh array object holding [a]. *)
Definition array_new (a : list string) : M loc := fun s =>
  let l := fresh (dom (heap s)) in
  (Ok l, set_heap (insert l a) s, []).

(** The contents of the array at [l]; there is no array at a dangling
    location (none arises in [run]). *)
Definition array_read (l : loc) : M (list string) := fun s =>
  match heap s !! l with
  | Some a => (Ok a, s, [])
  | None => (Throw, s, [])
  end.

(** [a.includes(x)] *)
Definition array_includes (l : loc) (x : string) : M bool :=
  a ← array_read l; mret (bool_decide (x ∈ a)).

Definition array_write (l : loc) (a : list string) : M unit := fun s =>
  (Ok tt, set_heap (insert l a) s, []).

(** [a.push(x)] *)
Definition array_push (l : loc) (x : string) : M unit :=
  a ← array_read l; array_write l (a ++ [x]).

(** *** [run] *)

Definition STATUS_PAGE_DOCUMENT_ROOT : string := STATUS_PAGE_HOST env +:+ "/".
Definition SERVICE_ROOT : string := SERVICE_HOST env +:+ "/".

(** Lines 72-73: [`${entry.link.split('/').pop()}-${entry.published}`] *)
Definition entryUniqueKey (entry : FeedEntry) : string :=
  Js.template (Js.pop (Js.split "/" (link entry)))
    +:+ "-" +:+ Js.number_to_string (published entry).

(** The callback of [feedEntries.items.filter] (lines 61-93).  The two
    arrays are passed as locations: [run] binds both names to one array. *)
Definition filter_callback (processedEntries newProcessedEntries : loc)
    (entry : FeedEntry) : M bool :=
  if bool_decide (link entry = STATUS_PAGE_DOCUMENT_ROOT) then mret false
  else if negb (Js.includes (title entry) (PLATFORM_NAME env)
                || Js.includes (title entry) (SERVICE_NAME env)) then mret false
  else
    if negb (TEST_MODE env) then
      seen ← array_includes processedEntries (entryUniqueKey entry);
      if seen : bool then mret false
      else
        array_push newProcessedEntries (entryUniqueKey entry);;
        now ← Date_now;
        let oneHourAgo := now - 60 * 60 * 1000 in
        if bool_decide (published entry < oneHourAgo) then mret false
        else mret true
    else mret true.

(** [a[0] || b[0] || c[0]] on element lists: elements are objects, hence
    truthy, so the first defined one is taken. *)
Definition first_defined (a b c : list Element) : option Element :=
  match head a with
  | Some el => Some el
  | None => match head b with
            | Some el => Some el
            | None => head c
            end
  end.

(** Lines 113-126.  [None] is the [undefined] left in [entryTypeJp] when
    no branch of the [switch] assigns it. *)
Definition entryTypeJp (entryType : option string) : option string :=
  match entryType with
  | None => Some "お知らせ"
  | Some t =>
      if bool_decide (t = "") then Some "お知らせ"
      else if bool_decide (t = "Downtime") then Some "障害情報"
      else if bool_decide (t = "Degraded") then Some "障害情報"
      else if bool_decide (t = "Maintenance") then Some "メンテナンス情報"
      else None
  end.

(** Line 110-111 *)
Definition entryType (dom : Document) : option string :=
  textContent <$>
    first_defined (getElementsByClassName "text-statuspage-blue" dom)
                  (getElementsByClassName "text-statuspage-yellow" dom)
                  (getElementsByClassName "text-statuspage-red" dom).

(** Line 128: [x?.textContent || '...'] *)
Definition page_description (dom : Document) : string :=
  match textContent <$> head (getElementsByClassName "prose-sm" dom) with
  | Some t => if bool_decide (t = "") then "詳細はリンク先をご確認ください。" else t
  | None => "詳細はリンク先をご確認ください。"
  end.

Definition newline : string := String (ascii_of_nat 10) EmptyString.

(** Line 129 *)
Definition compose (entry : FeedEntry) (dom : Document) : string :=
  "【" +:+ Js.template (entryTypeJp (entryType dom)) +:+ "】" +:+ newline
    +:+ title entry +:+ newline
    +:+ page_description dom +:+ newline
    +:+ link entry.

(** The callback of [feedEntriesToProcess.map] (lines 103-139). *)
Definition map_callback (entry : FeedEntry) : M string :=
  originalHtml ← fetch_text (link entry);
  let html := Js.replace "<!DOCTYPE html>" "" originalHtml in
  let dom := parseFromString world html in
  let message := compose entry dom in
  emit (EvCompose entry message);;
  if TEST_MODE env then mret message
  else misskey_request_notes_create entry message.

(** Line 54: [processedEntryList?.split(',') ?? []] *)
Definition read_back (processedEntryList : option string) : list string :=
  match processedEntryList with
  | Some v => Js.split "," v
  | None => []
  end.

(** Lines 97-101: write the list back, or delete the key when it is empty. *)
Definition write_back (final : list string) : M unit :=
  if bool_decide (0 < length final)%nat
  then kv_put (PROCESSED_ENTRIES_KV_KEY env) (Js.join "," final)
  else kv_delete (PROCESSED_ENTRIES_KV_KEY env).

(** [run] returns [undefined] after a failed probe and the list of
    results otherwise.  (Building the API client between the two probes
    has no effect and is left out.) *)
Definition run : M (option (list string)) :=
  response_ok ← fetch_head SERVICE_ROOT;
  if negb response_ok then
    console_log (SERVICE_NAME env +:+ "に接続できませんでした。");;
    mret None
  else
    statusPageResponse_ok ← fetch_head (STATUS_PAGE_HOST env);
    if negb statusPageResponse_ok then
      console_log "ステータスページに接続できませんでした。";;
      mret None
    else
      processedEntryList ← kv_get (PROCESSED_ENTRIES_KV_KEY env);
      processedEntries ← array_new (read_back processedEntryList);
      feedEntries_items ← parse (STATUS_PAGE_HOST env +:+ "/feed");
      let newProcessedEntries := processedEntries in
      feedEntriesToProcess ←
        array_filter (filter_callback processedEntries newProcessedEntries)
                     feedEntries_items;
      final ← array_read newProcessedEntries;
      write_back final;;
      results ← promise_all_map map_callback feedEntriesToProcess;
      mret (Some results).

End Worker.

(** ** Vocabulary of the statements *)

(** The three components of what a run produces. *)
Definition outcome (env : Env) (w : World) (s : State) : Res (option (list string)) :=
  (run env w s).1.1.
Definition after (env : Env) (w : World) (s : State) : State :=
  (run env w s).1.2.
Definition events (env : Env) (w : World) (s : State) : list Event :=
  (run env w s).2.

(** The state after one run per world of [ws], in order. *)
Definition after_all (env : Env) (ws : list World) (s : State) : State :=
  foldl (fun s w => after env w s) s ws.

(** The entries a log shows as submitted to the notes API, and the
    entries it shows as having had their message built. *)
Definition posted (evs : list Event) : list FeedEntry :=
  omap (fun ev => match ev with EvPost e _ => Some e | _ => None end) evs.
Definition composed (evs : list Event) : list (FeedEntry * string) :=
  omap (fun ev => match ev with EvCompose e m => Some (e, m) | _ => None end) evs.

(** The processed-entry list a run starting in [s] reads from the store. *)
Definition stored_list (env : Env) (s : State) : list string :=
  read_back (kv s !! PROCESSED_ENTRIES_KV_KEY env).

(** Both probes answer ok and the feed parses to [feed]. *)
Definition completes (env : Env) (w : World) (feed : list FeedEntry) : Prop :=
  head_ok w (SERVICE_ROOT env) = Some true /\
  head_ok w (STATUS_PAGE_HOST env) = Some true /\
  rss_items w (STATUS_PAGE_HOST env +:+ "/feed") = Some feed.

(** The world [w] with the feed replaced by [items]. *)
Definition with_items (w : World) (items : list FeedEntry) : World :=
  {| head_ok := head_ok w;
     rss_items := fun _ => Some items;
     page_text := page_text w;
     parseFromString := parseFromString w;
     clock := clock w;
     notes_create := notes_create w |}.

(** The first two guards of the filter: not the sentinel link, and a title
    naming the platform or the service. *)
Definition relevant (env : Env) (e : FeedEntry) : bool :=
  negb (bool_decide (link e = STATUS_PAGE_DOCUMENT_ROOT env))
  && (Js.includes (title e) (PLATFORM_NAME env)
      || Js.includes (title e) (SERVICE_NAME env)).

(** The keys of the relevant entries of a list. *)
Definition relevant_keys (env : Env) (l : list FeedEntry) : list string :=
  entryUniqueKey <$> filter (fun e => relevant env e = true) l.

Fixpoint has_char (c : ascii) (s : string) : bool :=
  match s with
  | EmptyString => false
  | String a s' => Ascii.eqb a c || has_char c s'
  end.

Definition no_comma (s : string) : Prop := has_char "," s = false.

(** The filter loop of [run] as a function of the array contents [arr]
    and the number [t] of clock readings made: the entries kept, the final
    array and the final number of readings. *)
Fixpoint sieve (env : Env) (clk : nat -> Z) (arr : list string) (t : nat)
    (feed : list FeedEntry) : list FeedEntry * list string * nat :=
  match feed with
  | [] => ([], arr, t)
  | e :: rest =>
      if negb (relevant env e) then sieve env clk arr t rest
      else if TEST_MODE env then
        match sieve env clk arr t rest with
        | (k, a, t') => (e :: k, a, t')
        end
      else if bool_decide (entryUniqueKey e ∈ arr) then sieve env clk arr t rest
      else
        match sieve env clk (arr ++ [entryUniqueKey e]) (S t) rest with
        | (k, a, t') =>
            (if bool_decide (published e < clk t - 60 * 60 * 1000) then k else e :: k, a, t')
        end
  end.

(** The map callback as functions of the entry: the message it builds
    (none when the detail page cannot be fetched), what its promise
    settles to, and what it logs. *)
Definition message (w : World) (e : FeedEntry) : option string :=
  (fun html => compose e (parseFromString w (Js.replace "<!DOCTYPE html>" "" html)))
    <$> page_text w (link e).

Definition callback_result (env : Env) (w : World) (e : FeedEntry) : Res string :=
  match message w e with
  | None => Throw
  | Some m =>
      if TEST_MODE env then Ok m
      else match notes_create w m with Some r => Ok r | None => Throw end
  end.

Definition callback_events (env : Env) (w : World) (e : FeedEntry) : list Event :=
  EvFetch (link e) ::
  match message w e with
  | None => []
  | Some m => EvCompose e m :: (if TEST_MODE env then [] else [EvPost e m])
  end.

(** [Promise.all] on settled promises. *)
Fixpoint all_fulfilled {A} (rs : list (Res A)) : Res (list A) :=
  match rs with
  | [] => Ok []
  | r :: rs' =>
      match r, all_fulfilled rs' with
      | Ok a, Ok l => Ok (a :: l)
      | _, _ => Throw
      end
  end.

(** The store after [write_back final]. *)
Definition written (env : Env) (final : list string) (m : gmap string string) : gmap string string :=
  if bool_decide (0 < length final)%nat
  then <[PROCESSED_ENTRIES_KV_KEY env := Js.join "," final]> m
  else delete (PROCESSED_ENTRIES_KV_KEY env) m.

Definition write_event (env : Env) (final : list string) : Event :=
  if bool_decide (0 < length final)%nat
  then EvKvPut (PROCESSED_ENTRIES_KV_KEY env) (Js.join "," final)
  else EvKvDelete (PROCESSED_ENTRIES_KV_KEY env).

(** The rule of notification, per occurrence: [earlier] are the entries
    that precede [e] in the feed, [stored] the list read from the store and
    [now] the reading of the clock. *)
Definition should_notify (env : Env) (stored : list string) (now : Z)
    (earlier : list FeedEntry) (e : FeedEntry) : bool :=
  negb (bool_decide (link e = STATUS_PAGE_DOCUMENT_ROOT env))
  && (Js.includes (title e) (PLATFORM_NAME env) || Js.includes (title e) (SERVICE_NAME env))
  && negb (bool_decide (entryUniqueKey e ∈ stored))
  && negb (bool_decide (entryUniqueKey e ∈ relevant_keys env earlier))
  && bool_decide (now - 3600000 <= published e).

Fixpoint notified_by_rule (env : Env) (stored : list string) (now : Z)
    (earlier feed : list FeedEntry) : list FeedEntry :=
  match feed with
  | [] => []
  | e :: rest =>
      (if should_notify env stored now earlier e then [e] else [])
      ++ notified_by_rule env stored now (earlier ++ [e]) rest
  end.

(** What the filter loop of a run over [feed] keeps, and what it leaves in
    the array. *)
Definition kept_of (env : Env) (w : World) (s : State) (feed : list FeedEntry) : list FeedEntry :=
  (sieve env (clock w) (stored_list env s) (ticks s) feed).1.1.
Definition final_of (env : Env) (w : World) (s : State) (feed : list FeedEntry) : list string :=
  (sieve env (clock w) (stored_list env s) (ticks s) feed).1.2.

(** The entries and texts a log shows as submitted to the notes API. *)
Definition submitted (evs : list Event) : list (FeedEntry * string) :=
  omap (fun ev => match ev with EvPost e m => Some (e, m) | _ => None end) evs.

(** *** The message format in the words of the specification *)

Inductive Label := NOTICE | INCIDENT | MAINTENANCE.

Definition label_text (l : Label) : string :=
  match l with
  | NOTICE => "お知らせ"
  | INCIDENT => "障害情報"
  | MAINTENANCE => "メンテナンス情報"
  end.

(** The four-line template. *)
Definition four_lines (label title description link : string) : string :=
  "【" +:+ label +:+ "】" +:+ newline
    +:+ title +:+ newline +:+ description +:+ newline +:+ link.

(** The label promised for a marker text ([None]: no marker element);
    nothing is promised for other texts. *)
Definition label_for (marker_text : option string) : option Label :=
  match marker_text with
  | None => Some NOTICE
  | Some t =>
      if bool_decide (t = "") then Some NOTICE
      else if bool_decide (t = "Downtime") then Some INCIDENT
      else if bool_decide (t = "Degraded") then Some INCIDENT
      else if bool_decide (t = "Maintenance") then Some MAINTENANCE
      else None
  end.

(** The marker element as the specification words it: the first element
    of the page that carries one of the three marker classes. *)
Definition first_marker_in_page (dom : Document) : option Element :=
  head (filter (fun el => "text-statuspage-blue" ∈ className el
                          \/ "text-statuspage-yellow" ∈ className el
                          \/ "text-statuspage-red" ∈ className el) dom).

(** The marker element the code selects: the first blue one, else the
    first yellow one, else the first red one. *)
Definition selected_marker (dom : Document) : option Element :=
  first_defined (getElementsByClassName "text-statuspage-blue" dom)
                (getElementsByClassName "text-statuspage-yellow" dom)
                (getElementsByClassName "text-statuspage-red" dom).

(** The rule of notification as the specification words it: the stored
    set only, whatever the mode. *)
Definition should_notify_as_claimed (env : Env) (stored : list string) (now : Z)
    (e : FeedEntry) : bool :=
  negb (bool_decide (link e = STATUS_PAGE_DOCUMENT_ROOT env))
  && (Js.includes (title e) (PLATFORM_NAME env) || Js.includes (title e) (SERVICE_NAME env))
  && negb (bool_decide (entryUniqueKey e ∈ stored))
  && bool_decide (now - 3600000 <= published e).

(** [p] occurs in [s]. *)
Definition substring_of (p s : string) : Prop := exists a b, s = a +:+ p +:+ b.

(** ** Sample data *)

Module Sample.

Definition env : Env :=
  {| SERVICE_HOST := "https://mi.example";
     STATUS_PAGE_HOST := "https://status.example";
     PROCESSED_ENTRIES_KV_KEY := "processed-entries";
     SERVICE_NAME := "Acme";
     PLATFORM_NAME := "Misskey";
     MISSKEY_API_TOKEN := "token";
     TEST_MODE := false;
     ALLOW_EXEC_VIA_HTTP := false |}.

Definition env_test : Env :=
  {| SERVICE_HOST := "https://mi.example";
     STATUS_PAGE_HOST := "https://status.example";
     PROCESSED_ENTRIES_KV_KEY := "processed-entries";
     SERVICE_NAME := "Acme";
     PLATFORM_NAME := "Misskey";
     MISSKEY_API_TOKEN := "token";
     TEST_MODE := true;
     ALLOW_EXEC_VIA_HTTP := true |}.

(** A detail page whose only marker is a yellow "Maintenance". *)
Definition maintenance_page : Document :=
  [ {| className := ["text-statuspage-yellow"]; textContent := "Maintenance" |};
    {| className := ["prose-sm"]; textContent := "Database upgrade" |} ].

(** A page with a yellow "Maintenance" marker followed by a blue
    "Downtime" marker. *)
Definition mixed_page : Document :=
  [ {| className := ["text-statuspage-yellow"]; textContent := "Maintenance" |};
    {| className := ["text-statuspage-blue"]; textContent := "Downtime" |};
    {| className := ["prose-sm"]; textContent := "Database upgrade" |} ].

(** A page whose marker carries a text the [switch] does not list. *)
Definition investigating_page : Document :=
  [ {| className := ["text-statuspage-red"]; textContent := "Investigating" |};
    {| className := ["prose-sm"]; textContent := "We are looking into it" |} ].

(** A world where the probes answer [ok1] and [ok2], the feed is [feed],
    every page is [dom], the clock reads [now] and the API accepts. *)
Definition world (ok1 ok2 : bool) (feed : list FeedEntry) (dom : Document) (now : Z) : World :=
  {| head_ok := fun url => if bool_decide (url = "https://mi.example/") then Some ok1 else Some ok2;
     rss_items := fun _ => Some feed;
     page_text := fun _ => Some "<!DOCTYPE html><html></html>";
     parseFromString := fun _ => dom;
     clock := fun _ => now;
     notes_create := fun _ => Some "{}" |}.

(** The same world with unreachable detail pages. *)
Definition world_no_pages (feed : list FeedEntry) (now : Z) : World :=
  {| head_ok := fun _ => Some true;
     rss_items := fun _ => Some feed;
     page_text := fun _ => None;
     parseFromString := fun _ => [];
     clock := fun _ => now;
     notes_create := fun _ => Some "{}" |}.

(** A fresh deployment: nothing stored. *)
Definition fresh_state : State := {| kv := ∅; heap := ∅; ticks := 0 |}.

(** A state whose store holds [v] under the key. *)
Definition state_with (v : string) : State :=
  {| kv := {[ "processed-entries" := v ]}; heap := ∅; ticks := 0 |}.

(** "Acme Maintenance", incident 42, published at 1000000000. *)
Definition entry42 : FeedEntry :=
  {| title := "Acme Maintenance"; description := "Maintenance completed";
     link := "https://status.example/incidents/42"; published := 1000000000 |}.

(** Another entry with the key of [entry42]. *)
Definition entry42_again : FeedEntry :=
  {| title := "Acme Maintenance (update)"; description := "Update";
     link := "https://status.example/maintenance/42"; published := 1000000000 |}.

(** An entry whose last path segment contains a comma. *)
Definition entry_comma : FeedEntry :=
  {| title := "Acme Degraded"; description := "Degraded";
     link := "https://status.example/incidents/a,b"; published := 1000000000 |}.

(** The status page itself. *)
Definition entry_root : FeedEntry :=
  {| title := "Acme status"; description := "All systems";
     link := "https://status.example/"; published := 1000000000 |}.

(** Two entries published at 5: the key of the first is [1-5], the key
    of the second is [1-5,1-5]. *)
Definition entry_one : FeedEntry :=
  {| title := "Acme Downtime"; description := "Downtime";
     link := "https://status.example/incidents/1"; published := 5 |}.
Definition entry_tricky : FeedEntry :=
  {| title := "Acme Downtime"; description := "Downtime";
     link := "https://status.example/incidents/1-5,1"; published := 5 |}.

(** Ten minutes, and two hours, after the sample entries were published. *)
Definition ten_minutes_later : Z := 1000000000 + 600000.
Definition two_hours_later : Z := 1000000000 + 7200000.

End Sample.

(** ** The handlers and the fetch wrapper *)

(** What the [fetch] handler answers with: [Response.json(data)], or a
    plain response with its [content-type]. *)
Inductive Response :=
| ResponseJson (data : option (list string))
| ResponseText (body : string) (content_type : string).

(** The [fetch] handler (lines 145-160), given the pathname of the request
    URL. *)
Definition fetch_handler (env : Env) (w : World) (pathname : string) : M Response :=
  if bool_decide (pathname = "/test-run") && ALLOW_EXEC_VIA_HTTP env then
    result ← run env w;
    mret (ResponseJson result)
  else mret (ResponseText "The bot is alive." "text/plain").

(** The [scheduled] handler (lines 162-164); [inspect] is the text
    [console.log] prints for a value. *)
Definition scheduled (inspect : option (list string) -> string) (env : Env) (w : World) : M unit :=
  result ← run env w;
  console_log (inspect result).

(** [cloudflareFetch] (lines 18-24) over a given [fetch].  [init] is the
    options object, a finite map from option names to values, or
    [undefined]; the object is changed in place, so it is returned along
    with what [fetch] gives. *)
Definition cloudflareFetch {V R : Type} (fetch : string -> option (gmap string V) -> R)
    (input : string) (init : option (gmap string V)) : option (gmap string V) * R :=
  let init1 := delete "credentials" <$> init in
  let init2 := delete "cache" <$> init1 in
  (init2, fetch input init2).

(** Two worlds that differ at most in the detail pages, their parsing
    and the notes API. *)
Definition same_intake (w1 w2 : World) : Prop :=
  (forall url, head_ok w1 url = head_ok w2 url)
  /\ (forall url, rss_items w1 url = rss_items w2 url)
  /\ (forall k, clock w1 k = clock w2 k).

(** The last path segment the key is built from. *)
Definition entryId (e : FeedEntry) : string :=
  Js.template (Js.pop (Js.split "/" (link e))).

(** ** Sample faults *)

Module Faults.

(** The service answers, the promise of the status page probe rejects. *)
Definition status_probe_rejects : World :=
  {| head_ok := fun url => if bool_decide (url = "https://mi.example/") then Some true else None;
     rss_items := fun _ => Some [Sample.entry42];
     page_text := fun _ => Some "<html></html>";
     parseFromString := fun _ => Sample.maintenance_page;
     clock := fun _ => Sample.ten_minutes_later;
     notes_create := fun _ => Some "{}" |}.

(** The probes answer ok and the feed cannot be parsed. *)
Definition feed_rejects : World :=
  {| head_ok := fun _ => Some true;
     rss_items := fun _ => None;
     page_text := fun _ => Some "<html></html>";
     parseFromString := fun _ => Sample.maintenance_page;
     clock := fun _ => Sample.ten_minutes_later;
     notes_create := fun _ => Some "{}" |}.

(** Everything works except the notes API, which rejects every note. *)
Definition api_rejects (feed : list FeedEntry) (now : Z) : World :=
  {| head_ok := fun _ => Some true;
     rss_items := fun _ => Some feed;
     page_text := fun _ => Some "<html></html>";
     parseFromString := fun _ => Sample.maintenance_page;
     clock := fun _ => now;
     notes_create := fun _ => None |}.

(** A third entry, incident 43, published with [Sample.entry42]. *)
Definition entry43 : FeedEntry :=
  {| title := "Misskey Degraded"; description := "Slow timelines";
     link := "https://status.example/incidents/43"; published := 1000000000 |}.

End Faults.

(** Two worlds that differ at most in the notes API. *)
Definition same_but_api (w1 w2 : World) : Prop :=
  same_intake w1 w2
  /\ (forall url, page_text w1 url = page_text w2 url)
  /\ (forall html, parseFromString w1 html = parseFromString w2 html).

(** ** The previous variant of the worker *)

(** The variant before the detail pages were read: the storage key is a
    constant of the module, the message is built from the entry alone, and
    everything happens in the [scheduled] handler. *)
Module Previous.

Definition PROCESSED_ENTRIES_KV_KEY : string := "processed-entries".

(** The message of an entry (the two [const] of the map callback). *)
Definition message (entry : FeedEntry) : string :=
  let description :=
    if bool_decide (description entry = "Maintenance completed")
    then "このメンテナンスは完了しました。"
    else description entry in
  "【メンテナンス・障害情報】" +:+ newline
    +:+ title entry +:+ newline +:+ description +:+ newline +:+ link entry.

(** The callback of [feedEntriesToProcess.map]. *)
Definition map_callback (env : Env) (w : World) (entry : FeedEntry) : M string :=
  emit (EvCompose entry (message entry));;
  if TEST_MODE env then mret (message entry)
  else misskey_request_notes_create w entry (message entry).

(** What the callback of [entry] logs. *)
Definition callback_events (env : Env) (entry : FeedEntry) : list Event :=
  EvCompose entry (message entry)
    :: (if TEST_MODE env then [] else [EvPost entry (message entry)]).

(** The [scheduled] handler; [inspect] is the text [console.log] prints
    for the list of results. *)
Definition scheduled (inspect : list string -> string) (env : Env) (w : World) : M unit :=
  response_ok ← fetch_head w (SERVICE_ROOT env);
  if negb response_ok then
    console_log "MICROPEN に接続できませんでした。"
  else
    statusPageResponse_ok ← fetch_head w (STATUS_PAGE_HOST env);
    if negb statusPageResponse_ok then
      console_log "ステータスページに接続できませんでした。"
    else
      processedEntryList ← kv_get PROCESSED_ENTRIES_KV_KEY;
      processedEntries ← array_new (read_back processedEntryList);
      feedEntries_items ← parse w (STATUS_PAGE_HOST env +:+ "/feed");
      let newProcessedEntries := processedEntries in
      feedEntriesToProcess ←
        array_filter (filter_callback env w processedEntries newProcessedEntries)
                     feedEntries_items;
      final ← array_read newProcessedEntries;
      (if bool_decide (0 < length final)%nat
       then kv_put PROCESSED_ENTRIES_KV_KEY (Js.join "," final)
       else kv_delete PROCESSED_ENTRIES_KV_KEY);;
      results ← promise_all_map (map_callback env w) feedEntriesToProcess;
      console_log (inspect results).

End Previous.

(** The accesses to the KV namespace a log shows, in order. *)
Definition kv_events (evs : list Event) : list Event :=
  omap (fun ev => match ev with
                  | EvKvGet _ | EvKvPut _ _ | EvKvDelete _ => Some ev
                  | _ => None
                  end) evs.


(** * Properties *)

(** ** Strings *)

Example split_empty : Js.split "," "" = [""].
Proof. reflexivity. Qed.
Example split_two : Js.split "," "a,b" = ["a"; "b"].
Proof. reflexivity. Qed.
Example split_link : Js.pop (Js.split "/" "https://s.example/incidents/42") = Some "42".
Proof. reflexivity. Qed.
Example join_three : Js.join "," ["a"; "b"; "c"] = "a,b,c".
Proof. reflexivity. Qed.
Example includes_ex :
  Js.includes "Acme Maintenance" "Acme" = true /\ Js.includes "acme" "Acme" = false
  /\ Js.includes "" "" = true.
Proof. repeat split; reflexivity. Qed.
Example replace_ex :
  Js.replace "<!DOCTYPE html>" "" "<!DOCTYPE html><p>x</p>" = "<p>x</p>"
  /\ Js.replace "ab" "X" "cabab" = "cXab" /\ Js.replace "zz" "X" "cabab" = "cabab".
Proof. repeat split; reflexivity. Qed.
Example number_ex :
  Js.number_to_string 0 = "0" /\ Js.number_to_string 1700000000000 = "1700000000000"
  /\ Js.number_to_string (-5) = "-5".
Proof. repeat split; reflexivity. Qed.

Section Strings.

Variable c : ascii.

Lemma split_cons (s : string) : exists w ws, Js.split c s = w :: ws.
Proof.
  induction s as [|a s IH]; simpl; [eauto|].
  destruct (Ascii.eqb a c); [eauto|].
  destruct IH as (w & ws & ->). eauto.
Qed.

Lemma split_not_nil (s : string) : Js.split c s <> [].
Proof. destruct (split_cons s) as (w & ws & ->). discriminate. Qed.

Lemma join_cons_cons (sep x y : string) (l : list string) :
  Js.join sep (x :: y :: l) = x +:+ sep +:+ Js.join sep (y :: l).
Proof. reflexivity. Qed.

(** Joining the pieces with the separator gives the string back. *)
Lemma join_split (s : string) : Js.join (String c EmptyString) (Js.split c s) = s.
Proof.
  induction s as [|a s IH]; [reflexivity|].
  simpl. destruct (Ascii.eqb_spec a c) as [->|Hne].
  - destruct (split_cons s) as (w & ws & E). rewrite E in *.
    simpl. simpl in IH. by rewrite IH.
  - destruct (split_cons s) as (w & ws & E). rewrite E in *.
    destruct ws as [|w' ws]; [simpl in *; by rewrite IH|].
    rewrite join_cons_cons. rewrite join_cons_cons in IH.
    rewrite <- IH. reflexivity.
Qed.

(** No piece contains the separator. *)
Lemma split_no_sep (s : string) : Forall (fun p => has_char c p = false) (Js.split c s).
Proof.
  induction s as [|a s IH]; simpl; [by repeat constructor|].
  destruct (Ascii.eqb a c) eqn:E.
  - by constructor.
  - destruct (split_cons s) as (w & ws & Es). rewrite Es in *.
    inversion IH; subst. constructor; [|done]. simpl. by rewrite E.
Qed.

Lemma split_one (x : string) : has_char c x = false -> Js.split c x = [x].
Proof.
  induction x as [|a x IH]; simpl; [done|].
  intros [Ha Hx]%orb_false_elim. rewrite Ha, (IH Hx). done.
Qed.

Lemma split_app_sep (x rest : string) :
  has_char c x = false ->
  Js.split c (x +:+ String c rest) = x :: Js.split c rest.
Proof.
  induction x as [|a x IH]; simpl.
  - intros _. by rewrite Ascii.eqb_refl.
  - intros [Ha Hx]%orb_false_elim. rewrite Ha, (IH Hx). done.
Qed.

(** Splitting a joined list gives the list back, as long as the list is
    not empty and no element contains the separator. *)
Lemma split_join (l : list string) :
  l <> [] -> Forall (fun p => has_char c p = false) l ->
  Js.split c (Js.join (String c EmptyString) l) = l.
Proof.
  induction l as [|x l IH]; [done|].
  intros _ Hall. inversion Hall as [|? ? Hx Hl]; subst.
  destruct l as [|y l].
  - simpl. by apply split_one.
  - change (Js.join (String c EmptyString) (x :: y :: l))
      with (x +:+ String c (Js.join (String c EmptyString) (y :: l))).
    rewrite split_app_sep by done. f_equal. by apply IH.
Qed.

End Strings.

(** ** The monadic code and its functional reading *)

Ltac monad_unfold := unfold mbind, M_bind, mret, M_ret; cbv beta.

Lemma state_eta (s : State) : {| kv := kv s; heap := heap s; ticks := ticks s |} = s.
Proof. by destruct s. Qed.

(** One call of the filter callback when both names are bound to the
    array at [p], which holds [arr]. *)
Lemma filter_callback_eq (env : Env) (w : World) (p : loc) (e : FeedEntry)
    (s : State) (arr : list string) :
  heap s !! p = Some arr ->
  filter_callback env w p p e s =
  if negb (relevant env e) then (Ok false, s, [])
  else if TEST_MODE env then (Ok true, s, [])
  else if bool_decide (entryUniqueKey e ∈ arr) then (Ok false, s, [])
  else (Ok (negb (bool_decide (published e < clock w (ticks s) - 60 * 60 * 1000))),
        tick (set_heap (insert p (arr ++ [entryUniqueKey e])) s), []).
Proof.
  intros Hp. unfold filter_callback, relevant.
  destruct (bool_decide (link e = STATUS_PAGE_DOCUMENT_ROOT env)); [done|].
  destruct (Js.includes (title e) (PLATFORM_NAME env) || Js.includes (title e) (SERVICE_NAME env));
    [|done].
  destruct (TEST_MODE env); [done|]. cbn [negb andb].
  unfold array_includes, array_push, array_read, array_write, Date_now.
  monad_unfold. rewrite Hp.
  destruct (bool_decide (entryUniqueKey e ∈ arr)); [done|].
  rewrite Hp.
  change (ticks (set_heap (insert p (arr ++ [entryUniqueKey e])) s)) with (ticks s).
  by destruct (bool_decide (published e < clock w (ticks s) - 60 * 60 * 1000)).
Qed.

(** With both names bound to the array at [p], the filter of [run] computes
    [sieve]. *)
Lemma array_filter_sieve (env : Env) (w : World) (p : loc) (feed : list FeedEntry) :
  forall (s : State) (arr : list string),
    heap s !! p = Some arr ->
    array_filter (filter_callback env w p p) feed s =
    match sieve env (clock w) arr (ticks s) feed with
    | (kept, arr', t') =>
        (Ok kept, {| kv := kv s; heap := <[p := arr']> (heap s); ticks := t' |}, [])
    end.
Proof.
  induction feed as [|e rest IH]; intros s arr Hp.
  - simpl. monad_unfold. rewrite insert_id by done. by rewrite state_eta.
  - simpl array_filter. monad_unfold.
    rewrite (filter_callback_eq env w p e s arr Hp). simpl sieve.
    destruct (negb (relevant env e)).
    { rewrite (IH s arr Hp).
      by destruct (sieve env (clock w) arr (ticks s) rest) as [[k a] t']. }
    destruct (TEST_MODE env).
    { rewrite (IH s arr Hp).
      by destruct (sieve env (clock w) arr (ticks s) rest) as [[k a] t']. }
    destruct (bool_decide (entryUniqueKey e ∈ arr)).
    { rewrite (IH s arr Hp).
      by destruct (sieve env (clock w) arr (ticks s) rest) as [[k a] t']. }
    set (s1 := tick (set_heap (insert p (arr ++ [entryUniqueKey e])) s)).
    assert (Hp1 : heap s1 !! p = Some (arr ++ [entryUniqueKey e])) by apply lookup_insert_eq.
    rewrite (IH s1 _ Hp1); simpl ticks; simpl kv; simpl heap.
    destruct (sieve env (clock w) (arr ++ [entryUniqueKey e]) (S (ticks s)) rest) as [[k a] t'].
    rewrite insert_insert_eq.
    by destruct (bool_decide (published e < clock w (ticks s) - 60 * 60 * 1000)).
Qed.

Lemma map_callback_eq (env : Env) (w : World) (e : FeedEntry) (s : State) :
  map_callback env w e s = (callback_result env w e, s, callback_events env w e).
Proof.
  unfold map_callback, callback_result, callback_events, message.
  unfold fetch_text, misskey_request_notes_create, settle, emit. monad_unfold.
  destruct (page_text w (link e)) as [html|]; [|done]. simpl.
  destruct (TEST_MODE env); [done|].
  by destruct (notes_create w _).
Qed.

Lemma promise_all_map_eq (env : Env) (w : World) (kept : list FeedEntry) (s : State) :
  promise_all_map (map_callback env w) kept s =
  (all_fulfilled (callback_result env w <$> kept), s,
   concat (callback_events env w <$> kept)).
Proof.
  induction kept as [|e kept IH]; [done|].
  simpl. by rewrite map_callback_eq, IH.
Qed.

(** A run that passes both probes and parses the feed, in full. *)
Lemma run_complete (env : Env) (w : World) (s : State) (feed : list FeedEntry) :
  completes env w feed ->
  run env w s =
  match sieve env (clock w) (stored_list env s) (ticks s) feed with
  | (kept, final, t') =>
      (match all_fulfilled (callback_result env w <$> kept) with
       | Ok rs => Ok (Some rs)
       | Throw => Throw
       end,
       {| kv := written env final (kv s);
          heap := <[fresh (dom (heap s)) := final]> (heap s);
          ticks := t' |},
       [EvHead (SERVICE_ROOT env); EvHead (STATUS_PAGE_HOST env);
        EvKvGet (PROCESSED_ENTRIES_KV_KEY env);
        EvParse (STATUS_PAGE_HOST env +:+ "/feed");
        write_event env final]
       ++ concat (callback_events env w <$> kept))
  end.
Proof.
  intros (H1 & H2 & H3). unfold run.
  unfold fetch_head, parse, settle, kv_get, array_new, console_log. monad_unfold.
  rewrite H1. cbn [negb]. rewrite H2. cbn [negb]. rewrite H3.
  set (p := fresh (dom (heap s))).
  set (s1 := set_heap (insert p (read_back (kv s !! PROCESSED_ENTRIES_KV_KEY env))) s).
  assert (Hp : heap s1 !! p = Some (stored_list env s)) by apply lookup_insert_eq.
  rewrite (array_filter_sieve env w p feed s1 _ Hp).
  change (ticks s1) with (ticks s).
  destruct (sieve env (clock w) (stored_list env s) (ticks s) feed) as [[kept final] t'].
  unfold array_read. cbn [heap]. rewrite lookup_insert_eq.
  subst s1. cbn [heap kv set_heap]. rewrite insert_insert_eq.
  unfold write_back, written, write_event, kv_put, kv_delete.
  destruct (bool_decide (0 < length final)%nat);
    rewrite promise_all_map_eq; cbn [kv set_kv heap ticks];
    destruct (all_fulfilled (callback_result env w <$> kept));
    unfold set_kv; cbn [kv heap ticks app]; by rewrite ?app_nil_r.
Qed.

(** A run whose first probe answers not-ok, and a run whose second does. *)
Lemma run_service_down (env : Env) (w : World) (s : State) :
  head_ok w (SERVICE_ROOT env) = Some false ->
  run env w s =
  (Ok None, s,
   [EvHead (SERVICE_ROOT env); EvLog (SERVICE_NAME env +:+ "に接続できませんでした。")]).
Proof.
  intros H1. unfold run, fetch_head, settle, console_log, emit. monad_unfold.
  by rewrite H1.
Qed.

Lemma run_status_page_down (env : Env) (w : World) (s : State) :
  head_ok w (SERVICE_ROOT env) = Some true ->
  head_ok w (STATUS_PAGE_HOST env) = Some false ->
  run env w s =
  (Ok None, s,
   [EvHead (SERVICE_ROOT env); EvHead (STATUS_PAGE_HOST env);
    EvLog "ステータスページに接続できませんでした。"]).
Proof.
  intros H1 H2. unfold run, fetch_head, settle, console_log, emit. monad_unfold.
  rewrite H1. cbn [negb]. by rewrite H2.
Qed.

(** ** The filter loop *)

Section Sieve.

Variable env : Env.
Variable clk : nat -> Z.

Lemma relevant_keys_snoc (l : list FeedEntry) (e : FeedEntry) :
  relevant_keys env (l ++ [e]) =
  relevant_keys env l ++ (if relevant env e then [entryUniqueKey e] else []).
Proof.
  unfold relevant_keys. rewrite filter_app, fmap_app. f_equal.
  rewrite filter_cons, filter_nil. destruct (relevant env e); by case_decide.
Qed.

Lemma relevant_keys_cons (l : list FeedEntry) (e : FeedEntry) :
  relevant_keys env (e :: l) =
  (if relevant env e then [entryUniqueKey e] else []) ++ relevant_keys env l.
Proof.
  unfold relevant_keys. rewrite filter_cons.
  destruct (relevant env e); by case_decide.
Qed.

(** In test mode the loop keeps the relevant entries and leaves the array
    and the clock alone. *)
Lemma sieve_test_mode (feed : list FeedEntry) (arr : list string) (t : nat) :
  TEST_MODE env = true ->
  sieve env clk arr t feed = (filter (fun e => relevant env e = true) feed, arr, t).
Proof.
  intros HT. induction feed as [|e rest IH]; [done|].
  simpl. rewrite HT, IH, filter_cons.
  destruct (relevant env e); by case_decide.
Qed.

(** The array only grows, by keys of relevant entries of the feed. *)
Lemma sieve_final (feed : list FeedEntry) :
  forall (arr : list string) (t : nat),
  exists added,
    (sieve env clk arr t feed).1.2 = arr ++ added
    /\ Forall (fun k => k ∈ relevant_keys env feed) added
    /\ (NoDup arr -> NoDup (arr ++ added)).
Proof.
  induction feed as [|e rest IH]; intros arr t.
  { exists []. rewrite app_nil_r. by repeat split. }
  simpl sieve. rewrite relevant_keys_cons.
  destruct (relevant env e) eqn:Hrel; cbn [negb].
  2:{ apply IH. }
  destruct (TEST_MODE env).
  { destruct (IH arr t) as (added & E & Hin & Hnd).
    destruct (sieve env clk arr t rest) as [[k a] t']. exists added.
    split; [done|]. split; [|done].
    eapply Forall_impl; [exact Hin|]. intros x Hx. set_solver. }
  case_bool_decide as Hseen.
  { destruct (IH arr t) as (added & E & Hin & Hnd). exists added.
    split; [done|]. split; [|done].
    eapply Forall_impl; [exact Hin|]. intros x Hx. set_solver. }
  destruct (IH (arr ++ [entryUniqueKey e]) (S t)) as (added & E & Hin & Hnd).
  destruct (sieve env clk (arr ++ [entryUniqueKey e]) (S t) rest) as [[k a] t'].
  exists (entryUniqueKey e :: added). simpl in E |- *.
  split; [by rewrite E, <- app_assoc|]. split.
  - constructor; [set_solver|].
    eapply Forall_impl; [exact Hin|]. intros x Hx. set_solver.
  - intros Harr. rewrite (assoc_L _ arr [entryUniqueKey e] added : arr ++ entryUniqueKey e :: added = _).
    apply Hnd. apply NoDup_app. repeat split; [done| |apply NoDup_singleton].
    intros x Hx ->%list_elem_of_singleton. done.
Qed.

(** Every relevant key of the feed is in the final array (normal mode). *)
Lemma sieve_covers (feed : list FeedEntry) :
  TEST_MODE env = false ->
  forall (arr : list string) (t : nat) (k : string),
    k ∈ arr \/ k ∈ relevant_keys env feed ->
    k ∈ (sieve env clk arr t feed).1.2.
Proof.
  intros HT. induction feed as [|e rest IH]; intros arr t k Hk.
  { simpl. destruct Hk as [?|Hk]; [done|]. by apply elem_of_nil in Hk. }
  simpl sieve. rewrite relevant_keys_cons in Hk. rewrite HT.
  destruct (relevant env e) eqn:Hrel; cbn [negb].
  2:{ apply IH. set_solver. }
  case_bool_decide as Hseen.
  { apply IH. set_solver. }
  specialize (IH (arr ++ [entryUniqueKey e]) (S t) k).
  destruct (sieve env clk (arr ++ [entryUniqueKey e]) (S t) rest) as [[kk a] t'].
  simpl in *. apply IH. set_solver.
Qed.

(** With a clock that reads [now] throughout, the loop keeps exactly the
    occurrences the rule selects. *)
Lemma sieve_kept (now : Z) (stored : list string) (feed : list FeedEntry) :
  TEST_MODE env = false ->
  (forall k, clk k = now) ->
  forall (earlier : list FeedEntry) (arr : list string) (t : nat),
    (forall k, k ∈ arr <-> k ∈ stored \/ k ∈ relevant_keys env earlier) ->
    (sieve env clk arr t feed).1.1 = notified_by_rule env stored now earlier feed.
Proof.
  intros HT Hclk. induction feed as [|e rest IH]; intros earlier arr t Harr; [done|].
  simpl sieve. simpl notified_by_rule. rewrite HT. unfold should_notify.
  fold (relevant env e).
  destruct (relevant env e) eqn:Hrel; cbn [negb andb].
  2:{ apply IH. intros k. rewrite relevant_keys_snoc, Hrel, app_nil_r. apply Harr. }
  case_bool_decide as Hseen.
  { assert (Hor := proj1 (Harr _) Hseen).
    replace (negb (bool_decide (entryUniqueKey e ∈ stored))
             && negb (bool_decide (entryUniqueKey e ∈ relevant_keys env earlier)))
      with false.
    2:{ symmetry. destruct Hor as [H|H].
        - by rewrite (bool_decide_eq_true_2 _ H).
        - rewrite (bool_decide_eq_true_2 _ H). by rewrite andb_false_r. }
    cbn [andb app]. apply IH. intros k.
    rewrite relevant_keys_snoc, Hrel. rewrite Harr. set_solver. }
  assert (Hns : entryUniqueKey e ∉ stored) by (intros H; apply Hseen, Harr; by left).
  assert (Hne : entryUniqueKey e ∉ relevant_keys env earlier)
    by (intros H; apply Hseen, Harr; by right).
  rewrite (bool_decide_eq_false_2 _ Hns), (bool_decide_eq_false_2 _ Hne). cbn [negb andb].
  specialize (IH (earlier ++ [e]) (arr ++ [entryUniqueKey e]) (S t)).
  destruct (sieve env clk (arr ++ [entryUniqueKey e]) (S t) rest) as [[k a] t'].
  simpl in IH |- *. rewrite <- IH.
  2:{ intros k'. rewrite relevant_keys_snoc, Hrel, !elem_of_app, Harr. tauto. }
  rewrite Hclk. change (60 * 60 * 1000) with 3600000.
  repeat case_bool_decide; try lia; done.
Qed.

End Sieve.

(** ** Runs *)

Section Runs.

Variable env : Env.
Variable w : World.
Variable s : State.

Lemma posted_write_event (final : list string) : posted [write_event env final] = [].
Proof. unfold write_event. by case_bool_decide. Qed.

Lemma composed_write_event (final : list string) : composed [write_event env final] = [].
Proof. unfold write_event. by case_bool_decide. Qed.

Section Complete.

Variable feed : list FeedEntry.
Hypothesis Hcomplete : completes env w feed.

Lemma after_complete :
  after env w s =
  {| kv := written env (final_of env w s feed) (kv s);
     heap := <[fresh (dom (heap s)) := final_of env w s feed]> (heap s);
     ticks := (sieve env (clock w) (stored_list env s) (ticks s) feed).2 |}.
Proof.
  unfold after, final_of. rewrite (run_complete env w s feed Hcomplete).
  by destruct (sieve env (clock w) (stored_list env s) (ticks s) feed) as [[k a] t'].
Qed.

Lemma kv_after_complete :
  kv (after env w s) = written env (final_of env w s feed) (kv s).
Proof. by rewrite after_complete. Qed.

Lemma events_complete :
  events env w s =
  [EvHead (SERVICE_ROOT env); EvHead (STATUS_PAGE_HOST env);
   EvKvGet (PROCESSED_ENTRIES_KV_KEY env);
   EvParse (STATUS_PAGE_HOST env +:+ "/feed");
   write_event env (final_of env w s feed)]
  ++ concat (callback_events env w <$> kept_of env w s feed).
Proof.
  unfold events, final_of, kept_of. rewrite (run_complete env w s feed Hcomplete).
  by destruct (sieve env (clock w) (stored_list env s) (ticks s) feed) as [[k a] t'].
Qed.

Lemma outcome_complete :
  outcome env w s =
  match all_fulfilled (callback_result env w <$> kept_of env w s feed) with
  | Ok rs => Ok (Some rs)
  | Throw => Throw
  end.
Proof.
  unfold outcome, kept_of. rewrite (run_complete env w s feed Hcomplete).
  by destruct (sieve env (clock w) (stored_list env s) (ticks s) feed) as [[k a] t'].
Qed.

Lemma posted_complete :
  posted (events env w s) =
  if TEST_MODE env then []
  else filter (fun e => is_Some (page_text w (link e))) (kept_of env w s feed).
Proof.
  rewrite events_complete. unfold posted at 1. rewrite omap_app.
  change (omap _ [_; _; _; _; ?e]) with (posted [e]).
  rewrite posted_write_event. cbn [app].
  induction (kept_of env w s feed) as [|e k IH].
  { by destruct (TEST_MODE env). }
  rewrite fmap_cons. cbn [concat]. rewrite omap_app, IH, filter_cons.
  unfold callback_events, message.
  destruct (page_text w (link e)) as [html|]; cbn [fmap option_fmap option_map].
  - rewrite decide_True by eauto. by destruct (TEST_MODE env).
  - rewrite decide_False by (by intros [? ?]). by destruct (TEST_MODE env).
Qed.

Lemma composed_complete :
  composed (events env w s) =
  omap (fun e => (fun m => (e, m)) <$> message w e) (kept_of env w s feed).
Proof.
  rewrite events_complete. unfold composed at 1. rewrite omap_app.
  change (omap _ [_; _; _; _; ?e]) with (composed [e]).
  rewrite composed_write_event. cbn [app].
  induction (kept_of env w s feed) as [|e k IH]; [done|].
  rewrite fmap_cons. cbn [concat]. rewrite omap_app, IH.
  unfold callback_events. cbn [omap list_omap].
  destruct (message w e) as [m|]; cbn [fmap option_fmap option_map]; [|done].
  by destruct (TEST_MODE env).
Qed.

End Complete.

End Runs.

(** ** Auxiliary facts about keys, the store and irrelevant entries *)

Lemma append_nonempty_r (a b : string) : b <> EmptyString -> a +:+ b <> EmptyString.
Proof. destruct a; [done|]. simpl. discriminate. Qed.

(** A dedup key is never the empty string: it contains the hyphen. *)
Lemma entryUniqueKey_nonempty (e : FeedEntry) : entryUniqueKey e <> EmptyString.
Proof. unfold entryUniqueKey. apply append_nonempty_r. simpl. discriminate. Qed.

Lemma join_empty (l : list string) :
  Js.join "," l = EmptyString -> l = [] \/ l = [EmptyString].
Proof.
  destruct l as [|x [|y l]]; simpl; [by left|intros ->; by right|].
  intros H. exfalso. revert H. apply append_nonempty_r. simpl. discriminate.
Qed.

Lemma read_back_nil (o : option string) : read_back o = [] <-> o = None.
Proof.
  destruct o as [v|]; simpl; [|done]. split; [|done].
  intros H. by apply split_not_nil in H.
Qed.

(** Writing back the list that was read leaves the store as it was. *)
Lemma written_stored (env : Env) (s : State) :
  written env (stored_list env s) (kv s) = kv s.
Proof.
  unfold written, stored_list.
  destruct (kv s !! PROCESSED_ENTRIES_KV_KEY env) as [v|] eqn:E; cbn [read_back].
  - destruct (split_cons "," v) as (x & xs & Ex).
    rewrite bool_decide_eq_true_2 by (rewrite Ex; simpl; lia).
    change "," with (String "," EmptyString). rewrite join_split. by apply insert_id.
  - rewrite bool_decide_eq_false_2 by (simpl; lia). by apply delete_id.
Qed.

Section Irrelevant.

Variable env : Env.
Variable clk : nat -> Z.

(** An entry stopped by one of the first two guards leaves no trace in
    the loop. *)
Lemma sieve_skip (pre post : list FeedEntry) (e : FeedEntry) :
  relevant env e = false ->
  forall (arr : list string) (t : nat),
    sieve env clk arr t (pre ++ e :: post) = sieve env clk arr t (pre ++ post).
Proof.
  intros He. induction pre as [|x pre IH]; intros arr t.
  { simpl. by rewrite He. }
  simpl. by rewrite !IH.
Qed.

(** In normal mode, so does an entry whose key is already in the array. *)
Lemma sieve_skip_seen (post : list FeedEntry) (e : FeedEntry) (arr : list string) (t : nat) :
  TEST_MODE env = false ->
  entryUniqueKey e ∈ arr ->
  sieve env clk arr t (e :: post) = sieve env clk arr t post.
Proof.
  intros HT He. simpl. rewrite HT.
  rewrite (bool_decide_eq_true_2 _ He). by destruct (relevant env e).
Qed.

(** What the loop keeps are relevant entries of the feed. *)
Lemma sieve_kept_relevant (feed : list FeedEntry) :
  forall (arr : list string) (t : nat) (x : FeedEntry),
    x ∈ (sieve env clk arr t feed).1.1 -> x ∈ feed /\ relevant env x = true.
Proof.
  induction feed as [|e rest IH]; intros arr t x; simpl.
  { by intros ?%elem_of_nil. }
  destruct (relevant env e) eqn:Hrel; cbn [negb].
  2:{ intros H. destruct (IH _ _ _ H). split; [by right|done]. }
  destruct (TEST_MODE env).
  { specialize (IH arr t x). destruct (sieve env clk arr t rest) as [[k a] t'].
    simpl in *. intros [->|H]%elem_of_cons; [split; [by left|done]|].
    destruct (IH H). split; [by right|done]. }
  case_bool_decide.
  { intros H'. destruct (IH _ _ _ H'). split; [by right|done]. }
  specialize (IH (arr ++ [entryUniqueKey e]) (S t) x).
  destruct (sieve env clk (arr ++ [entryUniqueKey e]) (S t) rest) as [[k a] t'].
  simpl in *. case_bool_decide.
  - intros H'. destruct (IH H'). split; [by right|done].
  - intros [->|H']%elem_of_cons; [split; [by left|done]|].
    destruct (IH H'). split; [by right|done].
Qed.

End Irrelevant.

(** A run stopped at a probe never looks at the feed. *)
Lemma run_stopped_at_probe (env : Env) (w w' : World) (s : State) :
  head_ok w' = head_ok w ->
  ~ (head_ok w (SERVICE_ROOT env) = Some true /\ head_ok w (STATUS_PAGE_HOST env) = Some true) ->
  run env w' s = run env w s
  /\ after env w s = s
  /\ posted (events env w s) = []
  /\ composed (events env w s) = [].
Proof.
  intros Hw Hnot. unfold after, events, run, fetch_head, settle, console_log, emit.
  monad_unfold. rewrite Hw.
  destruct (head_ok w (SERVICE_ROOT env)) as [[|]|]; cbn [negb]; [|done..].
  destruct (head_ok w (STATUS_PAGE_HOST env)) as [[|]|]; cbn [negb]; [|done..].
  destruct Hnot. done.
Qed.

(** A run whose feed cannot be parsed stops there: the store is untouched
    and nothing is built or submitted. *)
Lemma run_no_feed (env : Env) (w : World) (s : State) :
  head_ok w (SERVICE_ROOT env) = Some true ->
  head_ok w (STATUS_PAGE_HOST env) = Some true ->
  rss_items w (STATUS_PAGE_HOST env +:+ "/feed") = None ->
  outcome env w s = Throw
  /\ kv (after env w s) = kv s
  /\ posted (events env w s) = []
  /\ composed (events env w s) = [].
Proof.
  intros H1 H2 H3. unfold outcome, after, events, run.
  unfold fetch_head, parse, settle, kv_get, array_new. monad_unfold.
  rewrite H1. cbn [negb]. rewrite H2. cbn [negb]. rewrite H3. done.
Qed.

(** Either a run passes the probes and parses a feed, or it touches
    neither the store nor the notes API. *)
Lemma run_cases (env : Env) (w : World) (s : State) :
  (exists feed, completes env w feed)
  \/ (kv (after env w s) = kv s
      /\ posted (events env w s) = []
      /\ composed (events env w s) = []).
Proof.
  destruct (decide (head_ok w (SERVICE_ROOT env) = Some true
                    /\ head_ok w (STATUS_PAGE_HOST env) = Some true)) as [[H1 H2]|Hnot].
  2:{ right. destruct (run_stopped_at_probe env w w s eq_refl Hnot) as (_ & -> & Hp & Hc).
      done. }
  destruct (rss_items w (STATUS_PAGE_HOST env +:+ "/feed")) as [feed|] eqn:H3.
  - left. by exists feed.
  - right. by destruct (run_no_feed env w s H1 H2 H3) as (_ & ? & ? & ?).
Qed.

(** Whatever a log shows as built or submitted was kept by the filter of a
    run that passed the probes and parsed its feed. *)
Lemma notified_is_kept (env : Env) (w : World) (s : State) (e : FeedEntry) :
  e ∈ posted (events env w s) \/ e ∈ (fst <$> composed (events env w s)) ->
  exists feed, completes env w feed /\ e ∈ kept_of env w s feed.
Proof.
  intros He.
  destruct (decide (head_ok w (SERVICE_ROOT env) = Some true
                    /\ head_ok w (STATUS_PAGE_HOST env) = Some true)) as [[H1 H2]|Hnot].
  2:{ destruct (run_stopped_at_probe env w w s eq_refl Hnot) as (_ & _ & Hp & Hc).
      rewrite Hp, Hc in He. destruct He as [He|He]; by apply elem_of_nil in He. }
  destruct (rss_items w (STATUS_PAGE_HOST env +:+ "/feed")) as [feed|] eqn:H3.
  2:{ destruct (run_no_feed env w s H1 H2 H3) as (_ & _ & Hp & Hc).
      rewrite Hp, Hc in He. destruct He as [He|He]; by apply elem_of_nil in He. }
  assert (Hc : completes env w feed) by done.
  exists feed. split; [done|].
  rewrite (posted_complete env w s feed Hc), (composed_complete env w s feed Hc) in He.
  destruct He as [He|He].
  - destruct (TEST_MODE env); [by apply elem_of_nil in He|].
    by apply list_elem_of_filter in He as [_ ?].
  - apply list_elem_of_fmap in He as ([e' m] & -> & He).
    apply list_elem_of_omap in He as (x & Hx & Hm).
    destruct (message w x); simplify_eq/=. done.
Qed.

(** ** Probes, store and sentinel entry *)

(** C8.  If the probe of the service answers not-ok, or it answers ok and
    the probe of the status page answers not-ok, [run] returns [undefined]
    without raising, leaves the state (store included) exactly as it was,
    and its only effects are the probes made so far and one log line: the
    store is neither read nor written, the feed is not fetched and no
    message is built or submitted. *)
Theorem C8_failed_probe_aborts_silently (env : Env) (w : World) (s : State) :
  head_ok w (SERVICE_ROOT env) = Some false
  \/ (head_ok w (SERVICE_ROOT env) = Some true
      /\ head_ok w (STATUS_PAGE_HOST env) = Some false) ->
  outcome env w s = Ok None
  /\ after env w s = s
  /\ (events env w s =
        [EvHead (SERVICE_ROOT env);
         EvLog (SERVICE_NAME env +:+ "に接続できませんでした。")]
      \/ events env w s =
        [EvHead (SERVICE_ROOT env); EvHead (STATUS_PAGE_HOST env);
         EvLog "ステータスページに接続できませんでした。"]).
Proof.
  unfold outcome, after, events. intros [H1|[H1 H2]].
  - rewrite (run_service_down env w s H1). auto.
  - rewrite (run_status_page_down env w s H1 H2). auto.
Qed.

Lemma C8_witness :
  (head_ok (Sample.world true false [Sample.entry42] Sample.maintenance_page 0)
           (SERVICE_ROOT Sample.env) = Some false
   \/ (head_ok (Sample.world true false [Sample.entry42] Sample.maintenance_page 0)
               (SERVICE_ROOT Sample.env) = Some true
       /\ head_ok (Sample.world true false [Sample.entry42] Sample.maintenance_page 0)
                  (STATUS_PAGE_HOST Sample.env) = Some false))
  /\ outcome Sample.env (Sample.world true false [Sample.entry42] Sample.maintenance_page 0)
             (Sample.state_with "7-1") = Ok None
  /\ after Sample.env (Sample.world true false [Sample.entry42] Sample.maintenance_page 0)
           (Sample.state_with "7-1") = Sample.state_with "7-1".
Proof.
  assert (H : head_ok (Sample.world true false [Sample.entry42] Sample.maintenance_page 0)
                (SERVICE_ROOT Sample.env) = Some true
              /\ head_ok (Sample.world true false [Sample.entry42] Sample.maintenance_page 0)
                   (STATUS_PAGE_HOST Sample.env) = Some false)
    by (split; reflexivity).
  split; [right; exact H|].
  destruct (C8_failed_probe_aborts_silently Sample.env
              (Sample.world true false [Sample.entry42] Sample.maintenance_page 0)
              (Sample.state_with "7-1") (or_intror H)) as (Ho & Ha & _).
  split; [exact Ho|exact Ha].
Defined.

(** C7 (amended).  For every list of keys none of which contains a comma,
    writing the list back (comma-join then put, or delete when it is empty)
    and reading the store again gives exactly the same keys in the same
    order; and for the empty list the key is absent afterwards. *)
Theorem C7_roundtrip_without_commas (env : Env) (keys : list string) (s : State) :
  Forall no_comma keys ->
  read_back (kv (write_back env keys s).1.2 !! PROCESSED_ENTRIES_KV_KEY env) = keys
  /\ (keys = [] -> kv (write_back env keys s).1.2 !! PROCESSED_ENTRIES_KV_KEY env = None).
Proof.
  intros Hkeys. unfold write_back, kv_put, kv_delete.
  destruct keys as [|k keys].
  - rewrite bool_decide_eq_false_2 by (simpl; lia).
    cbn [fst snd kv set_kv]. by rewrite lookup_delete_eq.
  - rewrite bool_decide_eq_true_2 by (simpl; lia).
    cbn [fst snd kv set_kv]. rewrite lookup_insert_eq. split; [|done].
    cbn [read_back]. apply split_join; [done|exact Hkeys].
Qed.

Lemma C7_witness :
  Forall no_comma ["42-1000000000"; "43-1000000500"]
  /\ read_back (kv (write_back Sample.env ["42-1000000000"; "43-1000000500"]
                      Sample.fresh_state).1.2 !! "processed-entries")
     = ["42-1000000000"; "43-1000000500"].
Proof.
  assert (H : Forall no_comma ["42-1000000000"; "43-1000000500"])
    by (repeat constructor).
  split; [exact H|].
  exact (proj1 (C7_roundtrip_without_commas Sample.env
                  ["42-1000000000"; "43-1000000500"] Sample.fresh_state H)).
Defined.

(** C7 as stated fails: the key of an entry whose link ends in [a,b] is
    read back as two keys. *)
Lemma C7_counterexample :
  entryUniqueKey Sample.entry_comma = "a,b-1000000000"
  /\ read_back (kv (write_back Sample.env [entryUniqueKey Sample.entry_comma]
                      Sample.fresh_state).1.2 !! PROCESSED_ENTRIES_KV_KEY Sample.env)
     = ["a"; "b-1000000000"]
  /\ read_back (kv (write_back Sample.env [entryUniqueKey Sample.entry_comma]
                      Sample.fresh_state).1.2 !! PROCESSED_ENTRIES_KV_KEY Sample.env)
     <> [entryUniqueKey Sample.entry_comma].
Proof.
  assert (E : read_back (kv (write_back Sample.env [entryUniqueKey Sample.entry_comma]
                      Sample.fresh_state).1.2 !! PROCESSED_ENTRIES_KV_KEY Sample.env)
     = ["a"; "b-1000000000"]) by (vm_compute; reflexivity).
  split; [vm_compute; reflexivity|]. split; [exact E|].
  rewrite E. discriminate.
Qed.

(** Whatever the run, a store that did not hold the empty string under
    the key does not hold it afterwards. *)
Lemma run_never_stores_empty (env : Env) (w : World) (s : State) :
  kv s !! PROCESSED_ENTRIES_KV_KEY env <> Some EmptyString ->
  kv (after env w s) !! PROCESSED_ENTRIES_KV_KEY env <> Some EmptyString.
Proof.
  intros Hold.
  destruct (run_cases env w s) as [[feed Hc]|(-> & _)]; [|done].
  rewrite (kv_after_complete env w s feed Hc). unfold written.
  case_bool_decide as Hlen.
  2:{ by rewrite lookup_delete_eq. }
  rewrite lookup_insert_eq. intros [= Hjoin].
  apply join_empty in Hjoin as [Hnil|Hone].
  { rewrite Hnil in Hlen. simpl in Hlen. lia. }
  unfold final_of in Hone.
  destruct (sieve_final env (clock w) feed (stored_list env s) (ticks s))
    as (added & E & Hadded & _).
  rewrite Hone in E.
  destruct (stored_list env s) as [|x xs] eqn:Es.
  - simpl in E. subst added. apply Forall_inv in Hadded.
    apply list_elem_of_fmap in Hadded as (e & He & _).
    by apply (entryUniqueKey_nonempty e).
  - injection E as <- E'. symmetry in E'. apply app_eq_nil in E' as [-> ->].
    unfold stored_list in Es.
    destruct (kv s !! PROCESSED_ENTRIES_KV_KEY env) as [v|]; [|done].
    apply Hold. f_equal. simpl in Es.
    rewrite <- (join_split "," v), Es. done.
Qed.

(** C3.  After a run that passes the probes and parses the feed, with
    [final] the processed-entry list the run ends with (the contents of the
    array it allocated): the key holds the comma-joined [final] when
    [final] is not empty and is absent when it is empty.  And the stored
    value is never the empty string: a store that does not hold the empty
    string under the key (a fresh store in particular) does not hold it
    after any sequence of runs, completed or not. *)
Theorem C3_store_after_run (env : Env) (w : World) (s : State) :
  (forall feed,
     completes env w feed ->
     exists final,
       heap (after env w s) !! fresh (dom (heap s)) = Some final
       /\ (final <> [] ->
           kv (after env w s) !! PROCESSED_ENTRIES_KV_KEY env = Some (Js.join "," final))
       /\ (final = [] -> kv (after env w s) !! PROCESSED_ENTRIES_KV_KEY env = None))
  /\ (forall ws : list World,
        kv s !! PROCESSED_ENTRIES_KV_KEY env <> Some EmptyString ->
        kv (after_all env ws s) !! PROCESSED_ENTRIES_KV_KEY env <> Some EmptyString).
Proof.
  split.
  - intros feed Hc. exists (final_of env w s feed).
    rewrite (after_complete env w s feed Hc). cbn [heap kv].
    split; [apply lookup_insert_eq|]. unfold written. split.
    + intros Hne. rewrite bool_decide_eq_true_2, lookup_insert_eq; [done|].
      destruct (final_of env w s feed); [done|simpl; lia].
    + intros ->. rewrite bool_decide_eq_false_2 by (simpl; lia). apply lookup_delete_eq.
  - intros ws. revert s. induction ws as [|w' ws IH]; intros s Hold; [done|].
    cbn [after_all foldl]. apply IH. by apply run_never_stores_empty.
Qed.

Lemma C3_witness :
  completes Sample.env
    (Sample.world true true [Sample.entry42] Sample.maintenance_page Sample.ten_minutes_later)
    [Sample.entry42]
  /\ kv Sample.fresh_state !! PROCESSED_ENTRIES_KV_KEY Sample.env <> Some EmptyString
  /\ kv (after_all Sample.env
           [Sample.world true true [Sample.entry42] Sample.maintenance_page
              Sample.ten_minutes_later]
           Sample.fresh_state) !! PROCESSED_ENTRIES_KV_KEY Sample.env <> Some EmptyString
  /\ exists final,
       heap (after Sample.env
               (Sample.world true true [Sample.entry42] Sample.maintenance_page
                  Sample.ten_minutes_later)
               Sample.fresh_state) !! fresh (dom (heap Sample.fresh_state)) = Some final.
Proof.
  assert (Hc : completes Sample.env
    (Sample.world true true [Sample.entry42] Sample.maintenance_page Sample.ten_minutes_later)
    [Sample.entry42]) by (repeat split; reflexivity).
  assert (H0 : kv Sample.fresh_state !! PROCESSED_ENTRIES_KV_KEY Sample.env
               <> Some EmptyString) by (vm_compute; discriminate).
  split; [exact Hc|]. split; [exact H0|].
  destruct (C3_store_after_run Sample.env
              (Sample.world true true [Sample.entry42] Sample.maintenance_page
                 Sample.ten_minutes_later)
              Sample.fresh_state) as [Hwrite Hnever].
  split; [exact (Hnever _ H0)|].
  destruct (Hwrite _ Hc) as (final & Hfinal & _). exists final. exact Hfinal.
Defined.

(** C5.  An entry whose link is exactly the status page root is excluded
    from notification and from the growth of the dedup list, whatever the
    rest of the feed and the state of the store: the run over a feed that
    contains it is, in result, final state and effects, the run over the
    feed without it; no run builds or submits a message for it; and a run
    whose feed is this entry alone leaves the store as it was. *)
Theorem C5_sentinel_entry_is_excluded (env : Env) (w : World) (s : State)
    (pre post : list FeedEntry) (e : FeedEntry) :
  link e = STATUS_PAGE_DOCUMENT_ROOT env ->
  run env (with_items w (pre ++ e :: post)) s = run env (with_items w (pre ++ post)) s
  /\ (e ∉ posted (events env w s))
  /\ (e ∉ fst <$> composed (events env w s))
  /\ kv (after env (with_items w [e]) s) = kv s.
Proof.
  intros Hlink.
  assert (Hrel : relevant env e = false).
  { unfold relevant. by rewrite (bool_decide_eq_true_2 _ Hlink). }
  assert (Hinert : forall pre post,
    run env (with_items w (pre ++ e :: post)) s = run env (with_items w (pre ++ post)) s).
  { clear pre post. intros pre post.
    destruct (decide (head_ok w (SERVICE_ROOT env) = Some true
                      /\ head_ok w (STATUS_PAGE_HOST env) = Some true)) as [[H1 H2]|Hnot].
    - rewrite (run_complete env (with_items w (pre ++ e :: post)) s (pre ++ e :: post))
        by done.
      rewrite (run_complete env (with_items w (pre ++ post)) s (pre ++ post)) by done.
      cbn [clock with_items]. by rewrite (sieve_skip env (clock w) pre post e Hrel).
    - by destruct (run_stopped_at_probe env (with_items w (pre ++ post))
                     (with_items w (pre ++ e :: post)) s eq_refl Hnot) as [-> _]. }
  split; [apply Hinert|].
  assert (Hkept : forall feed, e ∉ kept_of env w s feed).
  { intros feed Hin. apply sieve_kept_relevant in Hin as [_ Hin]. congruence. }
  split; [|split].
  - intros Hin. destruct (notified_is_kept env w s e (or_introl Hin)) as (feed & _ & Hk).
    by apply (Hkept feed).
  - intros Hin. destruct (notified_is_kept env w s e (or_intror Hin)) as (feed & _ & Hk).
    by apply (Hkept feed).
  - pose proof (Hinert [] []) as H0. cbn [app] in H0.
    unfold after. rewrite H0. fold (after env (with_items w []) s).
    destruct (decide (head_ok w (SERVICE_ROOT env) = Some true
                      /\ head_ok w (STATUS_PAGE_HOST env) = Some true)) as [[H1 H2]|Hnot].
    + rewrite (kv_after_complete env (with_items w []) s []) by done.
      unfold final_of. cbn [sieve fst snd]. apply written_stored.
    + by destruct (run_stopped_at_probe env (with_items w []) (with_items w []) s
                     eq_refl Hnot) as (_ & -> & _).
Qed.

Lemma C5_witness :
  link Sample.entry_root = STATUS_PAGE_DOCUMENT_ROOT Sample.env
  /\ (Sample.entry_root ∉
       posted (events Sample.env
                 (Sample.world true true [Sample.entry_root] Sample.maintenance_page
                    Sample.ten_minutes_later)
                 Sample.fresh_state))
  /\ kv (after Sample.env
           (with_items (Sample.world true true [] Sample.maintenance_page
                          Sample.ten_minutes_later) [Sample.entry_root])
           (Sample.state_with "7-1")) = kv (Sample.state_with "7-1").
Proof.
  assert (H : link Sample.entry_root = STATUS_PAGE_DOCUMENT_ROOT Sample.env) by reflexivity.
  split; [exact H|]. split.
  - exact (proj1 (proj2 (C5_sentinel_entry_is_excluded Sample.env _ Sample.fresh_state
                           [] [] Sample.entry_root H))).
  - exact (proj2 (proj2 (proj2 (C5_sentinel_entry_is_excluded Sample.env _
                                  (Sample.state_with "7-1") [] [] Sample.entry_root H)))).
Defined.




(** ** The message *)

Lemma submitted_write_event (env : Env) (final : list string) :
  submitted [write_event env final] = [].
Proof. unfold write_event. by case_bool_decide. Qed.

Lemma submitted_complete (env : Env) (w : World) (s : State) (feed : list FeedEntry) :
  completes env w feed ->
  submitted (events env w s) =
  if TEST_MODE env then [] else composed (events env w s).
Proof.
  intros Hc. rewrite (composed_complete env w s feed Hc), (events_complete env w s feed Hc).
  unfold submitted at 1. rewrite omap_app.
  change (omap _ [_; _; _; _; ?e]) with (submitted [e]).
  rewrite submitted_write_event. cbn [app].
  induction (kept_of env w s feed) as [|e k IH].
  { by destruct (TEST_MODE env). }
  rewrite fmap_cons. cbn [concat]. rewrite omap_app, IH.
  unfold callback_events. cbn [omap list_omap].
  destruct (message w e) as [m|]; cbn [fmap option_fmap option_map];
    by destruct (TEST_MODE env).
Qed.

(** A message a log shows as built or submitted for [e] is the message of
    the map callback for [e]. *)
Lemma notified_message (env : Env) (w : World) (s : State) (e : FeedEntry) (m : string) :
  (e, m) ∈ composed (events env w s) \/ (e, m) ∈ submitted (events env w s) ->
  message w e = Some m.
Proof.
  intros He.
  assert (Hc : (e, m) ∈ composed (events env w s)).
  { destruct He as [He|He]; [done|].
    assert (e ∈ posted (events env w s)) as Hp.
    { unfold posted. apply list_elem_of_omap.
      unfold submitted in He. apply list_elem_of_omap in He as (ev & Hev & Hm).
      exists ev. split; [done|]. destruct ev; simplify_eq/=. done. }
    destruct (notified_is_kept env w s e (or_introl Hp)) as (feed & Hcomp & _).
    rewrite (submitted_complete env w s feed Hcomp) in He.
    destruct (TEST_MODE env); [by apply elem_of_nil in He|done]. }
  assert (e ∈ fst <$> composed (events env w s)) as Hfst.
  { apply list_elem_of_fmap. by exists (e, m). }
  destruct (notified_is_kept env w s e (or_intror Hfst)) as (feed & Hcomp & _).
  rewrite (composed_complete env w s feed Hcomp) in Hc.
  apply list_elem_of_omap in Hc as (x & _ & Hx).
  destruct (message w x) eqn:E; simplify_eq/=. done.
Qed.

Lemma label_for_entryTypeJp (t : option string) (label : Label) :
  label_for t = Some label -> entryTypeJp t = Some (label_text label).
Proof.
  unfold label_for, entryTypeJp. destruct t as [t|]; [|by intros [= <-]].
  repeat case_bool_decide; intros [= <-]; done.
Qed.

(** C4 (amended).  For every entry a run builds or submits a message for,
    the detail page of the entry was fetched and, whenever the text of the
    selected marker element (the first blue one, else the first yellow one,
    else the first red one) is covered by the table below, the message is
    the four-line template with the label of the table: NOTICE when there is
    no marker element or its text is empty, INCIDENT for "Downtime" and
    "Degraded", MAINTENANCE for "Maintenance". *)
Theorem C4_message_of_notified_entry (env : Env) (w : World) (s : State)
    (e : FeedEntry) (m : string) :
  (e, m) ∈ composed (events env w s) \/ (e, m) ∈ submitted (events env w s) ->
  exists html,
    page_text w (link e) = Some html
    /\ forall label,
         label_for (textContent <$>
                      selected_marker (parseFromString w (Js.replace "<!DOCTYPE html>" "" html)))
           = Some label ->
         m = four_lines (label_text label) (title e)
               (page_description (parseFromString w (Js.replace "<!DOCTYPE html>" "" html)))
               (link e).
Proof.
  intros He. apply notified_message in He. unfold message in He.
  destruct (page_text w (link e)) as [html|]; [|done].
  exists html. split; [done|]. intros label Hlabel.
  injection He as <-. unfold compose, four_lines.
  change (entryType ?d) with (textContent <$> selected_marker d).
  by rewrite (label_for_entryTypeJp _ _ Hlabel).
Qed.

Lemma C4_witness :
  ((Sample.entry42,
    four_lines (label_text MAINTENANCE) "Acme Maintenance" "Database upgrade"
      "https://status.example/incidents/42")
     ∈ composed (events Sample.env
                   (Sample.world true true [Sample.entry42] Sample.maintenance_page
                      Sample.ten_minutes_later)
                   Sample.fresh_state)
   \/ (Sample.entry42,
       four_lines (label_text MAINTENANCE) "Acme Maintenance" "Database upgrade"
         "https://status.example/incidents/42")
     ∈ submitted (events Sample.env
                    (Sample.world true true [Sample.entry42] Sample.maintenance_page
                       Sample.ten_minutes_later)
                    Sample.fresh_state))
  /\ exists html,
       page_text (Sample.world true true [Sample.entry42] Sample.maintenance_page
                    Sample.ten_minutes_later) (link Sample.entry42) = Some html.
Proof.
  assert (H : (Sample.entry42,
    four_lines (label_text MAINTENANCE) "Acme Maintenance" "Database upgrade"
      "https://status.example/incidents/42")
     ∈ submitted (events Sample.env
                    (Sample.world true true [Sample.entry42] Sample.maintenance_page
                       Sample.ten_minutes_later)
                    Sample.fresh_state)).
  { replace (submitted _) with
      [(Sample.entry42,
        four_lines (label_text MAINTENANCE) "Acme Maintenance" "Database upgrade"
          "https://status.example/incidents/42")] by (vm_compute; reflexivity).
    apply list_elem_of_here. }
  split; [right; exact H|].
  destruct (C4_message_of_notified_entry Sample.env _ Sample.fresh_state _ _ (or_intror H))
    as (html & Hhtml & _).
  exists html. exact Hhtml.
Defined.

(** C4 as stated fails twice.  On a page whose first marker element is a
    yellow "Maintenance" followed by a blue "Downtime", the label is the
    one of INCIDENT.  On a page whose marker reads "Investigating", the
    label is none of the three. *)
Lemma C4_counterexample :
  (textContent <$> first_marker_in_page Sample.mixed_page = Some "Maintenance"
   /\ submitted (events Sample.env
                   (Sample.world true true [Sample.entry42] Sample.mixed_page
                      Sample.ten_minutes_later)
                   Sample.fresh_state)
      = [(Sample.entry42,
          four_lines (label_text INCIDENT) "Acme Maintenance" "Database upgrade"
            "https://status.example/incidents/42")]
   /\ four_lines (label_text INCIDENT) "Acme Maintenance" "Database upgrade"
        "https://status.example/incidents/42"
      <> four_lines (label_text MAINTENANCE) "Acme Maintenance" "Database upgrade"
           "https://status.example/incidents/42")
  /\ (submitted (events Sample.env
                   (Sample.world true true [Sample.entry42] Sample.investigating_page
                      Sample.ten_minutes_later)
                   Sample.fresh_state)
      = [(Sample.entry42,
          four_lines "undefined" "Acme Maintenance" "We are looking into it"
            "https://status.example/incidents/42")]
      /\ forall l : Label,
           four_lines "undefined" "Acme Maintenance" "We are looking into it"
             "https://status.example/incidents/42"
           <> four_lines (label_text l) "Acme Maintenance" "We are looking into it"
                "https://status.example/incidents/42").
Proof.
  split; [split; [|split]|split].
  - vm_compute. reflexivity.
  - vm_compute. reflexivity.
  - vm_compute. discriminate.
  - vm_compute. reflexivity.
  - intros l. destruct l; vm_compute; discriminate.
Qed.

(** ** Which entries are notified *)

Lemma startsWith_spec (p : string) :
  forall s, Js.startsWith s p = true <-> exists b, s = p +:+ b.
Proof.
  induction p as [|a p IH]; intros s.
  { destruct s; simpl; split; eauto. }
  destruct s as [|b s]; simpl.
  { split; [done|]. by intros [? ?]. }
  destruct (Ascii.eqb_spec a b) as [->|Hne].
  - rewrite IH. split; intros [x Hx]; exists x; [by rewrite Hx|]. by injection Hx.
  - split; [done|]. intros [x Hx]. injection Hx as Hab _. by destruct Hne.
Qed.

(** [includes] decides the substring relation. *)
Lemma includes_spec (s p : string) : Js.includes s p = true <-> substring_of p s.
Proof.
  unfold substring_of. induction s as [|c s IH].
  - cbn [Js.includes]. rewrite orb_false_r, startsWith_spec. split.
    + intros [b Hb]. by exists EmptyString, b.
    + intros (a & b & Hab). destruct a; [by exists b|done].
  - cbn [Js.includes]. rewrite orb_true_iff, startsWith_spec, IH. split.
    + intros [[b Hb]|(a & b & Hab)].
      * by exists EmptyString, b.
      * exists (String c a), b. simpl. by rewrite Hab.
    + intros (a & b & Hab). destruct a as [|c' a].
      * left. by exists b.
      * right. injection Hab as _ Hab. by exists a, b.
Qed.

(** The rule, spelled out. *)
Lemma should_notify_spec (env : Env) (stored : list string) (now : Z)
    (earlier : list FeedEntry) (e : FeedEntry) :
  should_notify env stored now earlier e = true <->
  link e <> STATUS_PAGE_DOCUMENT_ROOT env
  /\ (substring_of (PLATFORM_NAME env) (title e) \/ substring_of (SERVICE_NAME env) (title e))
  /\ (entryUniqueKey e ∉ stored)
  /\ (entryUniqueKey e ∉ relevant_keys env earlier)
  /\ now - 3600000 <= published e.
Proof.
  unfold should_notify.
  rewrite !andb_true_iff, orb_true_iff, !negb_true_iff, !bool_decide_eq_false,
    bool_decide_eq_true, !includes_spec.
  tauto.
Qed.

(** Membership in the selection of the rule, occurrence by occurrence. *)
Lemma elem_of_notified_by_rule (env : Env) (stored : list string) (now : Z)
    (feed : list FeedEntry) (x : FeedEntry) :
  forall earlier,
    x ∈ notified_by_rule env stored now earlier feed <->
    exists pre post,
      feed = pre ++ x :: post /\ should_notify env stored now (earlier ++ pre) x = true.
Proof.
  induction feed as [|e rest IH]; intros earlier.
  { simpl. split; [by intros ?%elem_of_nil|]. intros (pre & post & H & _). by destruct pre. }
  cbn [notified_by_rule]. rewrite elem_of_app, IH. split.
  - intros [Hx|(pre & post & -> & Hs)].
    + destruct (should_notify env stored now earlier e) eqn:Hs; [|by apply elem_of_nil in Hx].
      apply list_elem_of_singleton in Hx as ->. exists [], rest. by rewrite app_nil_r.
    + exists (e :: pre), post. split; [done|]. by rewrite <- app_assoc in Hs.
  - intros (pre & post & Hfeed & Hs). destruct pre as [|y pre].
    + injection Hfeed as -> ->. rewrite app_nil_r in Hs. rewrite Hs. left. by left.
    + injection Hfeed as -> ->. right. exists pre, post. split; [done|].
      by rewrite <- app_assoc.
Qed.

(** In normal mode, with the pages fetchable and a clock that reads [now],
    what a run submits is what the rule selects. *)
Lemma posted_by_rule (env : Env) (w : World) (s : State) (feed : list FeedEntry) (now : Z) :
  TEST_MODE env = false ->
  completes env w feed ->
  (forall k, clock w k = now) ->
  (forall e, e ∈ feed -> is_Some (page_text w (link e))) ->
  posted (events env w s) = notified_by_rule env (stored_list env s) now [] feed.
Proof.
  intros HT Hc Hclk Hpages.
  rewrite (posted_complete env w s feed Hc), HT. unfold kept_of.
  assert (Hall : forall x, x ∈ (sieve env (clock w) (stored_list env s) (ticks s) feed).1.1 ->
                           is_Some (page_text w (link x))).
  { intros x [Hx _]%sieve_kept_relevant. by apply Hpages. }
  rewrite <- (sieve_kept env (clock w) now (stored_list env s) feed HT Hclk []
                (stored_list env s) (ticks s)).
  2:{ intros k. unfold relevant_keys. rewrite filter_nil. set_solver. }
  induction ((sieve env (clock w) (stored_list env s) (ticks s) feed).1.1) as [|x l IH];
    [done|].
  rewrite filter_cons, decide_True by (apply Hall; by left).
  f_equal. apply IH. intros y Hy. apply Hall. by right.
Qed.

Lemma posted_submitted (evs : list Event) : posted evs = fst <$> submitted evs.
Proof.
  induction evs as [|ev evs IH]; [done|].
  unfold posted, submitted in *. cbn [omap list_omap].
  destruct ev; cbn [fmap list_fmap fst]; by rewrite ?IH.
Qed.

(** C1 (amended).  In a run with TEST_MODE off that passes both probes,
    parses the feed and can fetch the detail pages, with a clock reading
    [now]: the entries for which a message is built and submitted are, in
    feed order, exactly the occurrences selected by the rule; and an entry
    is among them if and only if it occurs in the feed with a link other
    than the status page root, a title containing the platform name or the
    service name, a dedup key that is neither in the stored list nor the
    key of an earlier entry of the same feed that passes the link and title
    rules, and [published >= now - 3600000]. *)
Theorem C1_notified_iff (env : Env) (w : World) (s : State) (feed : list FeedEntry) (now : Z) :
  TEST_MODE env = false ->
  completes env w feed ->
  (forall k, clock w k = now) ->
  (forall e, e ∈ feed -> is_Some (page_text w (link e))) ->
  posted (events env w s) = notified_by_rule env (stored_list env s) now [] feed
  /\ fst <$> composed (events env w s) = posted (events env w s)
  /\ forall e,
       e ∈ posted (events env w s) <->
       exists pre post,
         feed = pre ++ e :: post
         /\ link e <> STATUS_PAGE_DOCUMENT_ROOT env
         /\ (substring_of (PLATFORM_NAME env) (title e)
             \/ substring_of (SERVICE_NAME env) (title e))
         /\ (entryUniqueKey e ∉ stored_list env s)
         /\ (entryUniqueKey e ∉ relevant_keys env pre)
         /\ now - 3600000 <= published e.
Proof.
  intros HT Hc Hclk Hpages.
  pose proof (posted_by_rule env w s feed now HT Hc Hclk Hpages) as Hp.
  split; [exact Hp|]. split.
  - rewrite posted_submitted, (submitted_complete env w s feed Hc), HT. done.
  - intros e. rewrite Hp, elem_of_notified_by_rule.
    split; intros (pre & post & Hfeed & H); exists pre, post; (split; [done|]);
      cbn [app] in *; by apply should_notify_spec.
Qed.

Lemma C1_witness :
  TEST_MODE Sample.env = false
  /\ completes Sample.env
       (Sample.world true true [Sample.entry42] Sample.maintenance_page Sample.ten_minutes_later)
       [Sample.entry42]
  /\ posted (events Sample.env
               (Sample.world true true [Sample.entry42] Sample.maintenance_page
                  Sample.ten_minutes_later)
               Sample.fresh_state)
     = [Sample.entry42].
Proof.
  assert (HT : TEST_MODE Sample.env = false) by reflexivity.
  assert (Hc : completes Sample.env
       (Sample.world true true [Sample.entry42] Sample.maintenance_page Sample.ten_minutes_later)
       [Sample.entry42]) by (repeat split; reflexivity).
  split; [exact HT|]. split; [exact Hc|].
  destruct (C1_notified_iff Sample.env _ Sample.fresh_state _ Sample.ten_minutes_later HT Hc)
    as [-> _].
  - intros k. reflexivity.
  - intros e _. eexists. reflexivity.
  - vm_compute. reflexivity.
Defined.

(** C1 as stated fails in three ways.  An entry that satisfies the four
    conditions is not notified when an earlier entry of the same feed has
    its key, when TEST_MODE is on, and when its detail page cannot be
    fetched. *)
Lemma C1_counterexample :
  (should_notify_as_claimed Sample.env (stored_list Sample.env Sample.fresh_state)
     Sample.ten_minutes_later Sample.entry42_again = true
   /\ posted (events Sample.env
                (Sample.world true true [Sample.entry42; Sample.entry42_again]
                   Sample.maintenance_page Sample.ten_minutes_later)
                Sample.fresh_state)
      = [Sample.entry42])
  /\ (should_notify_as_claimed Sample.env_test (stored_list Sample.env_test Sample.fresh_state)
        Sample.ten_minutes_later Sample.entry42 = true
      /\ posted (events Sample.env_test
                   (Sample.world true true [Sample.entry42] Sample.maintenance_page
                      Sample.ten_minutes_later)
                   Sample.fresh_state)
         = [])
  /\ (should_notify_as_claimed Sample.env (stored_list Sample.env Sample.fresh_state)
        Sample.ten_minutes_later Sample.entry42 = true
      /\ composed (events Sample.env
                     (Sample.world_no_pages [Sample.entry42] Sample.ten_minutes_later)
                     Sample.fresh_state)
         = []
      /\ posted (events Sample.env
                   (Sample.world_no_pages [Sample.entry42] Sample.ten_minutes_later)
                   Sample.fresh_state)
         = []).
Proof. repeat split; vm_compute; reflexivity. Qed.

(** C6 (amended).  With TEST_MODE off, in a run that passes the probes and
    parses the feed, with a clock reading [now]: an entry that passes the
    sentinel-link and title rules, whose key is neither in the stored list
    nor the key of an earlier relevant entry of the feed, and whose
    [published] is older than [now - 3600000], has its key among those
    appended to the list that is written back, and no message is built or
    submitted for it. *)
Theorem C6_old_entry_marked_not_notified (env : Env) (w : World) (s : State)
    (pre post : list FeedEntry) (e : FeedEntry) (now : Z) :
  TEST_MODE env = false ->
  completes env w (pre ++ e :: post) ->
  (forall k, clock w k = now) ->
  relevant env e = true ->
  entryUniqueKey e ∉ stored_list env s ->
  entryUniqueKey e ∉ relevant_keys env pre ->
  published e < now - 3600000 ->
  (exists added,
     kv (after env w s) !! PROCESSED_ENTRIES_KV_KEY env
       = Some (Js.join "," (stored_list env s ++ added))
     /\ entryUniqueKey e ∈ added)
  /\ (e ∉ posted (events env w s))
  /\ (e ∉ fst <$> composed (events env w s)).
Proof.
  intros HT Hc Hclk Hrel Hstored Hpre Hold.
  set (feed := pre ++ e :: post) in *.
  assert (Hkey : entryUniqueKey e ∈ final_of env w s feed).
  { apply sieve_covers; [done|]. right. unfold relevant_keys, feed.
    apply list_elem_of_fmap. exists e. split; [done|].
    apply list_elem_of_filter. split; [done|]. set_solver. }
  destruct (sieve_final env (clock w) feed (stored_list env s) (ticks s))
    as (added & E & _ & _).
  fold (final_of env w s feed) in E.
  split.
  - exists added. rewrite (kv_after_complete env w s feed Hc). unfold written.
    rewrite <- E. split.
    + rewrite bool_decide_eq_true_2, lookup_insert_eq; [done|].
      destruct (final_of env w s feed); [by apply elem_of_nil in Hkey|simpl; lia].
    + rewrite E in Hkey. apply elem_of_app in Hkey as [?|?]; done.
  - assert (Hnot : e ∉ kept_of env w s feed).
    { unfold kept_of.
      rewrite (sieve_kept env (clock w) now (stored_list env s) feed HT Hclk []
                 (stored_list env s) (ticks s)).
      2:{ intros k. unfold relevant_keys. rewrite filter_nil. set_solver. }
      intros (p1 & p2 & _ & Hs)%elem_of_notified_by_rule.
      apply should_notify_spec in Hs as (_ & _ & _ & _ & Hs). lia. }
    split; intros Hin.
    + destruct (notified_is_kept env w s e (or_introl Hin)) as (feed' & Hc' & Hk).
      assert (feed' = feed) as -> by (destruct Hc as (_ & _ & Hc), Hc' as (_ & _ & Hc'); congruence).
      done.
    + destruct (notified_is_kept env w s e (or_intror Hin)) as (feed' & Hc' & Hk).
      assert (feed' = feed) as -> by (destruct Hc as (_ & _ & Hc), Hc' as (_ & _ & Hc'); congruence).
      done.
Qed.

Lemma C6_witness :
  TEST_MODE Sample.env = false
  /\ relevant Sample.env Sample.entry42 = true
  /\ published Sample.entry42 < Sample.two_hours_later - 3600000
  /\ kv (after Sample.env
           (Sample.world true true [Sample.entry42] Sample.maintenance_page
              Sample.two_hours_later)
           Sample.fresh_state) !! PROCESSED_ENTRIES_KV_KEY Sample.env
     = Some "42-1000000000"
  /\ (Sample.entry42 ∉
        posted (events Sample.env
                  (Sample.world true true [Sample.entry42] Sample.maintenance_page
                     Sample.two_hours_later)
                  Sample.fresh_state)).
Proof.
  assert (HT : TEST_MODE Sample.env = false) by reflexivity.
  assert (Hc : completes Sample.env
       (Sample.world true true [Sample.entry42] Sample.maintenance_page Sample.two_hours_later)
       ([] ++ Sample.entry42 :: [])) by (repeat split; reflexivity).
  assert (Hrel : relevant Sample.env Sample.entry42 = true) by reflexivity.
  assert (Hold : published Sample.entry42 < Sample.two_hours_later - 3600000) by reflexivity.
  assert (Hs : entryUniqueKey Sample.entry42 ∉ stored_list Sample.env Sample.fresh_state).
  { replace (stored_list Sample.env Sample.fresh_state) with (@nil string) by reflexivity.
    apply not_elem_of_nil. }
  assert (Hp : entryUniqueKey Sample.entry42 ∉ relevant_keys Sample.env []).
  { replace (relevant_keys Sample.env []) with (@nil string) by reflexivity.
    apply not_elem_of_nil. }
  destruct (C6_old_entry_marked_not_notified Sample.env _ Sample.fresh_state [] []
              Sample.entry42 Sample.two_hours_later HT Hc (fun _ => eq_refl) Hrel Hs Hp Hold)
    as (_ & Hposted & _).
  split; [exact HT|]. split; [exact Hrel|]. split; [exact Hold|].
  split; [vm_compute; reflexivity|exact Hposted].
Defined.

(** C6 as stated fails with TEST_MODE on: the key of a relevant, unseen,
    two-hour-old entry is not appended (the key stays absent from the
    store), and a message is built for the entry. *)
Lemma C6_counterexample :
  relevant Sample.env_test Sample.entry42 = true
  /\ stored_list Sample.env_test Sample.fresh_state = []
  /\ published Sample.entry42 < Sample.two_hours_later - 3600000
  /\ kv (after Sample.env_test
           (Sample.world true true [Sample.entry42] Sample.maintenance_page
              Sample.two_hours_later)
           Sample.fresh_state) !! PROCESSED_ENTRIES_KV_KEY Sample.env_test
     = None
  /\ fst <$> composed (events Sample.env_test
                         (Sample.world true true [Sample.entry42] Sample.maintenance_page
                            Sample.two_hours_later)
                         Sample.fresh_state)
     = [Sample.entry42].
Proof. repeat split; vm_compute; reflexivity. Qed.

(** ** The shared array and repeated runs *)

Section Shared.

Variable env : Env.
Variable clk : nat -> Z.
Hypothesis normal_mode : TEST_MODE env = false.

(** An entry whose key was stored, or pushed by an earlier relevant entry
    of the same feed, leaves no trace in the loop. *)
Lemma sieve_skip_later (post : list FeedEntry) (e : FeedEntry) (pre : list FeedEntry) :
  forall (arr : list string) (t : nat),
    entryUniqueKey e ∈ arr \/ entryUniqueKey e ∈ relevant_keys env pre ->
    sieve env clk arr t (pre ++ e :: post) = sieve env clk arr t (pre ++ post).
Proof.
  induction pre as [|x pre IH]; intros arr t Hk.
  { destruct Hk as [Hk|Hk]; [|by apply elem_of_nil in Hk].
    by apply sieve_skip_seen. }
  cbn [app sieve]. rewrite relevant_keys_cons in Hk. rewrite normal_mode.
  destruct (relevant env x); cbn [negb app] in *.
  2:{ by apply IH. }
  case_bool_decide as Hx.
  { apply IH. destruct Hk as [Hk|[->|Hk]%elem_of_cons]; auto. }
  rewrite (IH (arr ++ [entryUniqueKey x]) (S t)); [done|].
  rewrite elem_of_app, list_elem_of_singleton.
  destruct Hk as [Hk|[->|Hk]%elem_of_cons]; auto.
Qed.

(** When every relevant key of the feed is in the array already, the loop
    keeps nothing and changes nothing. *)
Lemma sieve_all_seen (feed : list FeedEntry) (arr : list string) (t : nat) :
  (forall k, k ∈ relevant_keys env feed -> k ∈ arr) ->
  sieve env clk arr t feed = ([], arr, t).
Proof.
  induction feed as [|e rest IH]; intros Hall; [done|].
  cbn [sieve]. rewrite relevant_keys_cons in Hall. rewrite normal_mode.
  destruct (relevant env e); cbn [negb].
  2:{ apply IH. set_solver. }
  rewrite bool_decide_eq_true_2 by set_solver. apply IH. set_solver.
Qed.

(** The keys appended are new and pairwise distinct, and the keys of the
    entries kept are among them, in order. *)
Lemma sieve_added (feed : list FeedEntry) :
  forall (arr : list string) (t : nat),
  exists added,
    (sieve env clk arr t feed).1.2 = arr ++ added
    /\ NoDup added
    /\ (forall k, k ∈ added -> k ∉ arr)
    /\ (entryUniqueKey <$> (sieve env clk arr t feed).1.1) `sublist_of` added.
Proof.
  induction feed as [|e rest IH]; intros arr t.
  { exists []. rewrite app_nil_r. repeat split; [constructor|by intros ? ?%elem_of_nil|done]. }
  cbn [sieve]. rewrite normal_mode.
  destruct (relevant env e); cbn [negb]; [|apply IH].
  case_bool_decide as Hseen; [apply IH|].
  destruct (IH (arr ++ [entryUniqueKey e]) (S t)) as (added & E & Hnd & Hnew & Hsub).
  destruct (sieve env clk (arr ++ [entryUniqueKey e]) (S t) rest) as [[k a] t'].
  cbn [fst snd] in *. exists (entryUniqueKey e :: added).
  split; [by rewrite E, <- app_assoc|]. split; [|split].
  - constructor; [|done]. intros Hin. apply (Hnew _ Hin). set_solver.
  - intros x [->|Hx]%elem_of_cons; [done|]. intros Hin. apply (Hnew _ Hx). set_solver.
  - case_bool_decide.
    + by apply sublist_cons.
    + rewrite fmap_cons. by apply sublist_skip.
Qed.

End Shared.

(** A run is blind to an entry the loop skips. *)
Lemma run_inert (env : Env) (w : World) (s : State) (pre post : list FeedEntry) (e : FeedEntry) :
  sieve env (clock w) (stored_list env s) (ticks s) (pre ++ e :: post)
    = sieve env (clock w) (stored_list env s) (ticks s) (pre ++ post) ->
  run env (with_items w (pre ++ e :: post)) s = run env (with_items w (pre ++ post)) s.
Proof.
  intros Hsieve.
  destruct (decide (head_ok w (SERVICE_ROOT env) = Some true
                    /\ head_ok w (STATUS_PAGE_HOST env) = Some true)) as [[H1 H2]|Hnot].
  - rewrite (run_complete env (with_items w (pre ++ e :: post)) s (pre ++ e :: post))
      by done.
    rewrite (run_complete env (with_items w (pre ++ post)) s (pre ++ post)) by done.
    cbn [clock with_items]. by rewrite Hsieve.
  - by destruct (run_stopped_at_probe env (with_items w (pre ++ post))
                   (with_items w (pre ++ e :: post)) s eq_refl Hnot) as [-> _].
Qed.

Lemma stored_list_no_comma (env : Env) (s : State) : Forall no_comma (stored_list env s).
Proof.
  unfold stored_list. destruct (kv s !! PROCESSED_ENTRIES_KV_KEY env) as [v|]; simpl.
  - apply split_no_sep.
  - constructor.
Qed.

Section CommaFree.

Variable env : Env.
Variable feed : list FeedEntry.
Hypothesis keys_no_comma :
  forall e, e ∈ feed -> relevant env e = true -> no_comma (entryUniqueKey e).

Lemma final_no_comma (w : World) (s : State) : Forall no_comma (final_of env w s feed).
Proof.
  unfold final_of.
  destruct (sieve_final env (clock w) feed (stored_list env s) (ticks s))
    as (added & -> & Hadded & _).
  apply Forall_app. split; [apply stored_list_no_comma|].
  eapply Forall_impl; [exact Hadded|]. intros k Hk.
  apply list_elem_of_fmap in Hk as (e & -> & [He Hin]%list_elem_of_filter).
  by apply keys_no_comma.
Qed.

(** With comma-free keys, the next run reads the list this run ended with. *)
Lemma stored_after_complete (w : World) (s : State) :
  completes env w feed ->
  stored_list env (after env w s) = final_of env w s feed.
Proof.
  intros Hc. unfold stored_list at 1. rewrite (kv_after_complete env w s feed Hc).
  unfold written. pose proof (final_no_comma w s) as Hnc.
  destruct (final_of env w s feed) as [|k l] eqn:E.
  - rewrite bool_decide_eq_false_2 by (simpl; lia). by rewrite lookup_delete_eq.
  - rewrite bool_decide_eq_true_2 by (simpl; lia). rewrite lookup_insert_eq.
    cbn [read_back]. by apply split_join.
Qed.

End CommaFree.

(** C9 (amended).  The filter pushes to the very array it tests
    membership in.  Hence, with TEST_MODE off, an entry whose key is in the
    stored list or is the key of an earlier relevant entry of the same feed
    has no effect at all: its key is not added again and it is not
    notified.  In every run at most one entry per key is submitted.  And a
    run that read a list without duplicates ends with a list [final]
    without duplicates, which is what it writes back; the next run reads
    exactly [final] again provided no key of a relevant entry of the feed
    contains a comma. *)
Theorem C9_shared_array_no_duplicates (env : Env) (w : World) (s : State) :
  (TEST_MODE env = false ->
   forall pre e post,
     entryUniqueKey e ∈ stored_list env s \/ entryUniqueKey e ∈ relevant_keys env pre ->
     run env (with_items w (pre ++ e :: post)) s = run env (with_items w (pre ++ post)) s)
  /\ NoDup (entryUniqueKey <$> posted (events env w s))
  /\ (forall feed,
        completes env w feed ->
        NoDup (stored_list env s) ->
        exists final,
          heap (after env w s) !! fresh (dom (heap s)) = Some final
          /\ NoDup final
          /\ kv (after env w s) = written env final (kv s)
          /\ ((forall e, e ∈ feed -> relevant env e = true -> no_comma (entryUniqueKey e)) ->
              stored_list env (after env w s) = final)).
Proof.
  split; [|split].
  - intros HT pre e post Hk. apply run_inert. by apply sieve_skip_later.
  - destruct (run_cases env w s) as [[feed Hc]|(_ & -> & _)]; [|constructor].
    rewrite (posted_complete env w s feed Hc).
    destruct (TEST_MODE env) eqn:HT; [constructor|].
    destruct (sieve_added env (clock w) HT feed (stored_list env s) (ticks s))
      as (added & _ & Hnd & _ & Hsub).
    eapply sublist_NoDup; [exact Hnd|].
    etrans; [|exact Hsub]. apply (fmap_sublist entryUniqueKey), sublist_filter.
  - intros feed Hc Hnd. exists (final_of env w s feed).
    rewrite (after_complete env w s feed Hc). cbn [heap kv].
    split; [apply lookup_insert_eq|]. split; [|split; [done|]].
    + unfold final_of.
      destruct (sieve_final env (clock w) feed (stored_list env s) (ticks s))
        as (added & -> & _ & H). by apply H.
    + intros Hnc. rewrite <- (after_complete env w s feed Hc).
      by apply stored_after_complete.
Qed.

Lemma C9_witness :
  TEST_MODE Sample.env = false
  /\ (entryUniqueKey Sample.entry42_again ∈ relevant_keys Sample.env [Sample.entry42])
  /\ run Sample.env
        (with_items (Sample.world true true [] Sample.maintenance_page Sample.ten_minutes_later)
           ([Sample.entry42] ++ Sample.entry42_again :: []))
        Sample.fresh_state
      = run Sample.env
          (with_items (Sample.world true true [] Sample.maintenance_page Sample.ten_minutes_later)
             ([Sample.entry42] ++ []))
          Sample.fresh_state.
Proof.
  assert (HT : TEST_MODE Sample.env = false) by reflexivity.
  assert (Hk : entryUniqueKey Sample.entry42_again ∈ relevant_keys Sample.env [Sample.entry42]).
  { replace (relevant_keys Sample.env [Sample.entry42])
      with [entryUniqueKey Sample.entry42_again] by (vm_compute; reflexivity).
    apply list_elem_of_here. }
  split; [exact HT|]. split; [exact Hk|].
  exact (proj1 (C9_shared_array_no_duplicates Sample.env
                  (Sample.world true true [] Sample.maintenance_page Sample.ten_minutes_later)
                  Sample.fresh_state)
           HT [Sample.entry42] Sample.entry42_again [] (or_intror Hk)).
Defined.

(** C9 as stated fails on its last clause.  From an empty store, one run
    over two entries with the keys [1-5] and [1-5,1-5] leaves a stored
    value whose list holds [1-5] three times, and the array that a second
    run over the same feed writes back holds duplicates as well. *)
Lemma C9_counterexample :
  stored_list Sample.env Sample.fresh_state = []
  /\ relevant_keys Sample.env [Sample.entry_one; Sample.entry_tricky] = ["1-5"; "1-5,1-5"]
  /\ stored_list Sample.env
       (after Sample.env
          (Sample.world true true [Sample.entry_one; Sample.entry_tricky]
             Sample.maintenance_page 600005)
          Sample.fresh_state)
     = ["1-5"; "1-5"; "1-5"]
  /\ heap (after_all Sample.env
             [Sample.world true true [Sample.entry_one; Sample.entry_tricky]
                Sample.maintenance_page 600005;
              Sample.world true true [Sample.entry_one; Sample.entry_tricky]
                Sample.maintenance_page 600005]
             Sample.fresh_state)
       !! 1%nat
     = Some ["1-5"; "1-5"; "1-5"; "1-5,1-5"]
  /\ ~ NoDup ["1-5"; "1-5"; "1-5"].
Proof.
  split; [vm_compute; reflexivity|]. split; [vm_compute; reflexivity|].
  split; [vm_compute; reflexivity|]. split; [vm_compute; reflexivity|].
  intros [H _]%NoDup_cons. apply H. left.
Qed.

Section Repeated.

Variable env : Env.
Variable feed : list FeedEntry.
Hypothesis normal_mode : TEST_MODE env = false.
Hypothesis keys_no_comma :
  forall e, e ∈ feed -> relevant env e = true -> no_comma (entryUniqueKey e).

(** One run over the feed: the stored list stays free of duplicates and
    ends up holding the key of every relevant entry. *)
Lemma one_run (w : World) (s : State) :
  completes env w feed ->
  NoDup (stored_list env s) ->
  NoDup (stored_list env (after env w s))
  /\ forall e, e ∈ feed -> relevant env e = true ->
               entryUniqueKey e ∈ stored_list env (after env w s).
Proof.
  intros Hc Hnd. rewrite (stored_after_complete env feed keys_no_comma w s Hc).
  unfold final_of. split.
  - destruct (sieve_final env (clock w) feed (stored_list env s) (ticks s))
      as (added & -> & _ & H). by apply H.
  - intros e He Hrel. apply sieve_covers; [done|]. right.
    apply list_elem_of_fmap. exists e. split; [done|].
    by apply list_elem_of_filter.
Qed.

(** A run over the feed from a state that already holds every relevant
    key changes nothing in the store and notifies nothing. *)
Lemma settled_run (w : World) (s : State) :
  completes env w feed ->
  (forall e, e ∈ feed -> relevant env e = true -> entryUniqueKey e ∈ stored_list env s) ->
  kv (after env w s) = kv s
  /\ posted (events env w s) = []
  /\ composed (events env w s) = [].
Proof.
  intros Hc Hall.
  assert (Hs : sieve env (clock w) (stored_list env s) (ticks s) feed
               = ([], stored_list env s, ticks s)).
  { apply sieve_all_seen; [done|]. intros k Hk.
    apply list_elem_of_fmap in Hk as (e & -> & [He Hin]%list_elem_of_filter).
    by apply Hall. }
  rewrite (kv_after_complete env w s feed Hc), (posted_complete env w s feed Hc),
    (composed_complete env w s feed Hc).
  unfold final_of, kept_of. rewrite Hs, normal_mode. cbn [fst snd].
  split; [apply written_stored|done].
Qed.

Lemma repeated_runs (ws : list World) :
  forall s,
    ws <> [] ->
    Forall (fun w => completes env w feed) ws ->
    NoDup (stored_list env s) ->
    NoDup (stored_list env (after_all env ws s))
    /\ forall e, e ∈ feed -> relevant env e = true ->
                 entryUniqueKey e ∈ stored_list env (after_all env ws s).
Proof.
  induction ws as [|w ws IH]; intros s Hne Hall Hnd; [done|].
  inversion Hall as [|? ? Hw Hws]; subst.
  destruct (one_run w s Hw Hnd) as [Hnd1 Hin1].
  destruct ws as [|w' ws]; [done|].
  apply (IH (after env w s)); done.
Qed.

End Repeated.

(** C2 (amended).  With TEST_MODE off, starting from a store whose list has
    no duplicates (an absent key in particular), and for a feed in which no
    key of an entry that passes the sentinel-link and title rules contains a
    comma: after one or more runs over that feed, the key of each such
    entry is in the persisted list, which has no duplicates, so it is there
    exactly once; and a further run over the same feed leaves the store
    unchanged and builds and submits no message. *)
Theorem C2_repeated_runs_idempotent (env : Env) (feed : list FeedEntry)
    (ws : list World) (s : State) :
  TEST_MODE env = false ->
  NoDup (stored_list env s) ->
  (forall e, e ∈ feed -> relevant env e = true -> no_comma (entryUniqueKey e)) ->
  ws <> [] ->
  Forall (fun w => completes env w feed) ws ->
  (forall e, e ∈ feed -> relevant env e = true ->
             entryUniqueKey e ∈ stored_list env (after_all env ws s))
  /\ NoDup (stored_list env (after_all env ws s))
  /\ (forall w,
        completes env w feed ->
        kv (after env w (after_all env ws s)) = kv (after_all env ws s)
        /\ posted (events env w (after_all env ws s)) = []
        /\ composed (events env w (after_all env ws s)) = []).
Proof.
  intros HT Hnd Hnc Hne Hall.
  destruct (repeated_runs env feed HT Hnc ws s Hne Hall Hnd) as [Hnd' Hin].
  split; [exact Hin|]. split; [exact Hnd'|].
  intros w Hw. by apply (settled_run env feed HT).
Qed.

Lemma C2_witness :
  TEST_MODE Sample.env = false
  /\ NoDup (stored_list Sample.env Sample.fresh_state)
  /\ stored_list Sample.env
       (after_all Sample.env
          [Sample.world true true [Sample.entry42] Sample.maintenance_page
             Sample.ten_minutes_later;
           Sample.world true true [Sample.entry42] Sample.maintenance_page
             Sample.ten_minutes_later]
          Sample.fresh_state)
     = ["42-1000000000"]
  /\ NoDup (stored_list Sample.env
       (after_all Sample.env
          [Sample.world true true [Sample.entry42] Sample.maintenance_page
             Sample.ten_minutes_later;
           Sample.world true true [Sample.entry42] Sample.maintenance_page
             Sample.ten_minutes_later]
          Sample.fresh_state)).
Proof.
  assert (HT : TEST_MODE Sample.env = false) by reflexivity.
  assert (Hnd : NoDup (stored_list Sample.env Sample.fresh_state)).
  { replace (stored_list Sample.env Sample.fresh_state) with (@nil string) by reflexivity.
    constructor. }
  assert (Hnc : forall e, e ∈ [Sample.entry42] -> relevant Sample.env e = true ->
                          no_comma (entryUniqueKey e)).
  { intros e ->%list_elem_of_singleton _. reflexivity. }
  assert (Hall : Forall (fun w => completes Sample.env w [Sample.entry42])
            [Sample.world true true [Sample.entry42] Sample.maintenance_page
               Sample.ten_minutes_later;
             Sample.world true true [Sample.entry42] Sample.maintenance_page
               Sample.ten_minutes_later])
    by (repeat constructor).
  split; [exact HT|]. split; [exact Hnd|]. split; [vm_compute; reflexivity|].
  refine (proj1 (proj2 (C2_repeated_runs_idempotent Sample.env [Sample.entry42] _
                          Sample.fresh_state HT Hnd Hnc _ Hall))).
  discriminate.
Defined.

(** C2 as stated fails in two ways.  With an entry whose link ends in
    [a,b], a second run over the unchanged feed submits the entry again and
    the persisted list then holds its pieces twice and the key itself not at
    all.  With TEST_MODE on, the key of a relevant entry never reaches the
    persisted list.  And a comma in the key of one entry harms the others:
    in a feed of two entries with the keys [1-5] and [1-5,1-5], the first
    key, which holds no comma, is read back three times after one run, and
    the second run submits again and changes the store. *)
Lemma C2_counterexample :
  (relevant Sample.env Sample.entry_comma = true
   /\ entryUniqueKey Sample.entry_comma = "a,b-1000000000"
   /\ posted (events Sample.env
                (Sample.world true true [Sample.entry_comma] Sample.maintenance_page
                   Sample.ten_minutes_later)
                (after Sample.env
                   (Sample.world true true [Sample.entry_comma] Sample.maintenance_page
                      Sample.ten_minutes_later)
                   Sample.fresh_state))
      = [Sample.entry_comma]
   /\ stored_list Sample.env
        (after_all Sample.env
           [Sample.world true true [Sample.entry_comma] Sample.maintenance_page
              Sample.ten_minutes_later;
            Sample.world true true [Sample.entry_comma] Sample.maintenance_page
              Sample.ten_minutes_later]
           Sample.fresh_state)
      = ["a"; "b-1000000000"; "a"; "b-1000000000"])
  /\ (relevant Sample.env_test Sample.entry42 = true
      /\ stored_list Sample.env_test
           (after Sample.env_test
              (Sample.world true true [Sample.entry42] Sample.maintenance_page
                 Sample.ten_minutes_later)
              Sample.fresh_state)
         = [])
  /\ (relevant Sample.env Sample.entry_one = true
      /\ no_comma (entryUniqueKey Sample.entry_one)
      /\ entryUniqueKey Sample.entry_one = "1-5"
      /\ stored_list Sample.env
           (after Sample.env
              (Sample.world true true [Sample.entry_one; Sample.entry_tricky]
                 Sample.maintenance_page 600005)
              Sample.fresh_state)
         = ["1-5"; "1-5"; "1-5"]
      /\ posted (events Sample.env
                   (Sample.world true true [Sample.entry_one; Sample.entry_tricky]
                      Sample.maintenance_page 600005)
                   (after Sample.env
                      (Sample.world true true [Sample.entry_one; Sample.entry_tricky]
                         Sample.maintenance_page 600005)
                      Sample.fresh_state))
         = [Sample.entry_tricky]
      /\ kv (after_all Sample.env
                [Sample.world true true [Sample.entry_one; Sample.entry_tricky]
                   Sample.maintenance_page 600005;
                 Sample.world true true [Sample.entry_one; Sample.entry_tricky]
                   Sample.maintenance_page 600005]
                Sample.fresh_state) !! PROCESSED_ENTRIES_KV_KEY Sample.env
         = Some "1-5,1-5,1-5,1-5,1-5").
Proof. repeat split; vm_compute; reflexivity. Qed.

(** ** Keys without commas *)

Lemma has_char_append (c : ascii) (a b : string) :
  has_char c (a +:+ b) = has_char c a || has_char c b.
Proof. induction a as [|x a IH]; [done|]. simpl. by rewrite IH, orb_assoc. Qed.

(** A piece of [s] holds no character that [s] does not hold. *)
Lemma split_piece_char (c sep : ascii) (s : string) :
  has_char c s = false -> Forall (fun p => has_char c p = false) (Js.split sep s).
Proof.
  induction s as [|a s IH]; simpl; [by repeat constructor|].
  intros [Ha Hs]%orb_false_elim. specialize (IH Hs).
  destruct (Ascii.eqb a sep); [by constructor|].
  destruct (split_cons sep s) as (x & xs & E). rewrite E in *.
  inversion IH; subst. constructor; [|done]. simpl. by rewrite Ha.
Qed.

Lemma uint_no_comma (d : Decimal.uint) : has_char "," (NilEmpty.string_of_uint d) = false.
Proof. induction d; simpl; done. Qed.

Lemma number_to_string_no_comma (n : Z) : no_comma (Js.number_to_string n).
Proof.
  unfold no_comma, Js.number_to_string, NilZero.string_of_int.
  destruct (Z.to_int n) as [d|d]; unfold NilZero.string_of_uint.
  - destruct d; [reflexivity|apply uint_no_comma..].
  - cbn [has_char]. destruct d; [reflexivity|apply uint_no_comma..].
Qed.

(** The key of an entry whose link holds no comma holds no comma. *)
Lemma entryUniqueKey_no_comma (e : FeedEntry) :
  no_comma (link e) -> no_comma (entryUniqueKey e).
Proof.
  intros Hlink. unfold no_comma, entryUniqueKey.
  rewrite !has_char_append, number_to_string_no_comma, orb_false_r.
  pose proof (split_piece_char "," "/" (link e) Hlink) as Hall.
  unfold Js.pop. destruct (last (Js.split "/" (link e))) as [x|] eqn:E; [|done].
  apply last_Some in E as [l' E]. rewrite E in Hall.
  apply Forall_app in Hall as [_ Hall]. by apply Forall_inv in Hall.
Qed.

(** ** The scenarios of the specification, evaluated *)

(** One entry whose link is the status page root: nothing is notified and
    the store is as before. *)
Example scenario_root_entry :
  posted (events Sample.env
            (Sample.world true true [Sample.entry_root] Sample.maintenance_page
               Sample.ten_minutes_later)
            (Sample.state_with "7-1")) = []
  /\ kv (after Sample.env
           (Sample.world true true [Sample.entry_root] Sample.maintenance_page
              Sample.ten_minutes_later)
           (Sample.state_with "7-1")) = kv (Sample.state_with "7-1").
Proof. split; vm_compute; reflexivity. Qed.

(** "Acme Maintenance", published ten minutes ago, link [.../incidents/42]:
    the key is stored and the entry is notified, with the four lines. *)
Example scenario_fresh_entry :
  submitted (events Sample.env
               (Sample.world true true [Sample.entry42] Sample.maintenance_page
                  Sample.ten_minutes_later)
               Sample.fresh_state)
  = [(Sample.entry42,
      four_lines (label_text MAINTENANCE) "Acme Maintenance" "Database upgrade"
        "https://status.example/incidents/42")]
  /\ stored_list Sample.env
       (after Sample.env
          (Sample.world true true [Sample.entry42] Sample.maintenance_page
             Sample.ten_minutes_later)
          Sample.fresh_state) = ["42-1000000000"].
Proof. split; vm_compute; reflexivity. Qed.

(** The same feed on the next run: nothing is notified and the key is
    stored once. *)
Example scenario_same_feed_again :
  posted (events Sample.env
            (Sample.world true true [Sample.entry42] Sample.maintenance_page
               Sample.ten_minutes_later)
            (Sample.state_with "42-1000000000")) = []
  /\ stored_list Sample.env
       (after Sample.env
          (Sample.world true true [Sample.entry42] Sample.maintenance_page
             Sample.ten_minutes_later)
          (Sample.state_with "42-1000000000")) = ["42-1000000000"].
Proof. split; vm_compute; reflexivity. Qed.

(** Published two hours ago: the key is stored, the entry is not notified. *)
Example scenario_old_entry :
  posted (events Sample.env
            (Sample.world true true [Sample.entry42] Sample.maintenance_page
               Sample.two_hours_later)
            Sample.fresh_state) = []
  /\ stored_list Sample.env
       (after Sample.env
          (Sample.world true true [Sample.entry42] Sample.maintenance_page
             Sample.two_hours_later)
          Sample.fresh_state) = ["42-1000000000"].
Proof. split; vm_compute; reflexivity. Qed.

(** * Further properties of the worker *)

(** ** Rejections *)

(** X1.  When the promise of the service probe rejects, or the service
    probe answers ok and the promise of the status page probe rejects, [run]
    rejects at once: the state is exactly as before and the log holds the
    probes made so far and nothing else. *)
Theorem X1_probe_rejection_propagates (env : Env) (w : World) (s : State) :
  head_ok w (SERVICE_ROOT env) = None
  \/ (head_ok w (SERVICE_ROOT env) = Some true
      /\ head_ok w (STATUS_PAGE_HOST env) = None) ->
  outcome env w s = Throw
  /\ after env w s = s
  /\ (events env w s = [EvHead (SERVICE_ROOT env)]
      \/ events env w s = [EvHead (SERVICE_ROOT env); EvHead (STATUS_PAGE_HOST env)]).
Proof.
  unfold outcome, after, events, run, fetch_head, settle. monad_unfold.
  intros [H1|[H1 H2]]; rewrite H1; cbn [negb]; [auto|]. rewrite H2. auto.
Qed.

Lemma X1_witness :
  (head_ok Faults.status_probe_rejects (SERVICE_ROOT Sample.env) = Some true
   /\ head_ok Faults.status_probe_rejects (STATUS_PAGE_HOST Sample.env) = None)
  /\ outcome Sample.env Faults.status_probe_rejects (Sample.state_with "7-1") = Throw
  /\ after Sample.env Faults.status_probe_rejects (Sample.state_with "7-1")
     = Sample.state_with "7-1".
Proof.
  assert (H : head_ok Faults.status_probe_rejects (SERVICE_ROOT Sample.env) = Some true
              /\ head_ok Faults.status_probe_rejects (STATUS_PAGE_HOST Sample.env) = None)
    by (split; reflexivity).
  split; [exact H|].
  destruct (X1_probe_rejection_propagates Sample.env Faults.status_probe_rejects
              (Sample.state_with "7-1") (or_intror H)) as (Ho & Ha & _).
  split; [exact Ho|exact Ha].
Defined.

Lemma events_no_feed (env : Env) (w : World) (s : State) :
  head_ok w (SERVICE_ROOT env) = Some true ->
  head_ok w (STATUS_PAGE_HOST env) = Some true ->
  rss_items w (STATUS_PAGE_HOST env +:+ "/feed") = None ->
  events env w s =
  [EvHead (SERVICE_ROOT env); EvHead (STATUS_PAGE_HOST env);
   EvKvGet (PROCESSED_ENTRIES_KV_KEY env);
   EvParse (STATUS_PAGE_HOST env +:+ "/feed")].
Proof.
  intros H1 H2 H3. unfold events, run.
  unfold fetch_head, parse, settle, kv_get, array_new. monad_unfold.
  rewrite H1. cbn [negb]. rewrite H2. cbn [negb]. rewrite H3. done.
Qed.

(** X2.  When both probes answer ok and the feed cannot be fetched or
    parsed, [run] rejects after reading the store: the store is not
    written, no detail page is fetched and nothing is built or submitted. *)
Theorem X2_feed_rejection_leaves_store (env : Env) (w : World) (s : State) :
  head_ok w (SERVICE_ROOT env) = Some true ->
  head_ok w (STATUS_PAGE_HOST env) = Some true ->
  rss_items w (STATUS_PAGE_HOST env +:+ "/feed") = None ->
  outcome env w s = Throw
  /\ kv (after env w s) = kv s
  /\ events env w s =
     [EvHead (SERVICE_ROOT env); EvHead (STATUS_PAGE_HOST env);
      EvKvGet (PROCESSED_ENTRIES_KV_KEY env);
      EvParse (STATUS_PAGE_HOST env +:+ "/feed")].
Proof.
  intros H1 H2 H3.
  destruct (run_no_feed env w s H1 H2 H3) as (Ho & Hk & _).
  split; [exact Ho|]. split; [exact Hk|]. by apply events_no_feed.
Qed.

Lemma X2_witness :
  rss_items Faults.feed_rejects (STATUS_PAGE_HOST Sample.env +:+ "/feed") = None
  /\ outcome Sample.env Faults.feed_rejects (Sample.state_with "7-1") = Throw
  /\ kv (after Sample.env Faults.feed_rejects (Sample.state_with "7-1"))
     = kv (Sample.state_with "7-1").
Proof.
  split; [reflexivity|].
  destruct (X2_feed_rejection_leaves_store Sample.env Faults.feed_rejects
              (Sample.state_with "7-1") eq_refl eq_refl eq_refl) as (Ho & Hk & _).
  split; [exact Ho|exact Hk].
Defined.

(** ** What a run does to the store *)

Lemma elem_of_callback_events (env : Env) (w : World) (kept : list FeedEntry) (ev : Event) :
  ev ∈ concat (callback_events env w <$> kept) ->
  (exists url, ev = EvFetch url) \/ (exists e m, ev = EvCompose e m)
  \/ (exists e m, ev = EvPost e m).
Proof.
  induction kept as [|e kept IH]; [by intros ?%elem_of_nil|].
  rewrite fmap_cons. cbn [concat]. intros [Hev|Hev]%elem_of_app; [|by apply IH].
  unfold callback_events in Hev. apply elem_of_cons in Hev as [->|Hev]; [eauto|].
  destruct (message w e) as [m|]; [|by apply elem_of_nil in Hev].
  apply elem_of_cons in Hev as [->|Hev]; [eauto 6|].
  destruct (TEST_MODE env); [by apply elem_of_nil in Hev|].
  apply list_elem_of_singleton in Hev as ->. eauto 6.
Qed.

(** X3.  A run never deletes stored data: whenever it issues a delete, it
    is for the configured key, the key was absent before the run, and the
    store after the run is the store before it. *)
Theorem X3_delete_only_when_absent (env : Env) (w : World) (s : State) (k : string) :
  EvKvDelete k ∈ events env w s ->
  k = PROCESSED_ENTRIES_KV_KEY env
  /\ kv s !! PROCESSED_ENTRIES_KV_KEY env = None
  /\ kv (after env w s) = kv s.
Proof.
  intros Hdel.
  destruct (decide (head_ok w (SERVICE_ROOT env) = Some true
                    /\ head_ok w (STATUS_PAGE_HOST env) = Some true)) as [[H1 H2]|Hnot].
  2:{ exfalso. revert Hdel. unfold events, run, fetch_head, settle, console_log, emit.
      monad_unfold.
      destruct (head_ok w (SERVICE_ROOT env)) as [[|]|]; cbn [negb].
      - destruct (head_ok w (STATUS_PAGE_HOST env)) as [[|]|]; cbn [negb].
        + by destruct Hnot.
        + cbn. rewrite !elem_of_cons, elem_of_nil. naive_solver.
        + cbn. rewrite !elem_of_cons, elem_of_nil. naive_solver.
      - cbn. rewrite !elem_of_cons, elem_of_nil. naive_solver.
      - cbn. rewrite !elem_of_cons, elem_of_nil. naive_solver. }
  destruct (rss_items w (STATUS_PAGE_HOST env +:+ "/feed")) as [feed|] eqn:H3.
  2:{ rewrite (events_no_feed env w s H1 H2 H3) in Hdel. exfalso. revert Hdel.
      rewrite !elem_of_cons, elem_of_nil. naive_solver. }
  assert (Hc : completes env w feed) by done.
  rewrite (events_complete env w s feed Hc) in Hdel.
  rewrite (kv_after_complete env w s feed Hc).
  apply elem_of_app in Hdel as [Hdel|Hdel].
  2:{ apply elem_of_callback_events in Hdel. naive_solver. }
  rewrite !elem_of_cons, elem_of_nil in Hdel.
  destruct Hdel as [?|[?|[?|[?|[Hw|[]]]]]]; try done.
  unfold write_event, written in *. case_bool_decide as Hlen; [done|].
  injection Hw as ->. split; [done|].
  assert (Hfinal : final_of env w s feed = []).
  { destruct (final_of env w s feed); [done|]. simpl in Hlen. lia. }
  unfold final_of in Hfinal.
  destruct (sieve_final env (clock w) feed (stored_list env s) (ticks s))
    as (added & E & _ & _).
  rewrite Hfinal in E. symmetry in E. apply app_eq_nil in E as [Hs _].
  apply read_back_nil in Hs. split; [done|]. by apply delete_id.
Qed.

Lemma X3_witness :
  (EvKvDelete "processed-entries"
     ∈ events Sample.env
         (Sample.world true true [] Sample.maintenance_page 0) Sample.fresh_state)
  /\ kv Sample.fresh_state !! PROCESSED_ENTRIES_KV_KEY Sample.env = None.
Proof.
  assert (H : EvKvDelete "processed-entries"
     ∈ events Sample.env
         (Sample.world true true [] Sample.maintenance_page 0) Sample.fresh_state).
  { replace (events _ _ _) with
      [EvHead "https://mi.example/"; EvHead "https://status.example";
       EvKvGet "processed-entries"; EvParse "https://status.example/feed";
       EvKvDelete "processed-entries"] by (vm_compute; reflexivity).
    do 4 apply list_elem_of_further. apply list_elem_of_here. }
  split; [exact H|].
  exact (proj1 (proj2 (X3_delete_only_when_absent Sample.env _ _ _ H))).
Defined.

Lemma string_app_assoc (a b c : string) : (a +:+ b) +:+ c = a +:+ (b +:+ c).
Proof.
  induction a as [|x a IH]; [done|].
  change (String x ((a +:+ b) +:+ c) = String x (a +:+ (b +:+ c))). by rewrite IH.
Qed.

(** Joining a list is joining its tail to the join of a non-empty front. *)
Lemma join_app_chunk (sep : string) (l1 l2 : list string) :
  l1 <> [] -> Js.join sep (l1 ++ l2) = Js.join sep (Js.join sep l1 :: l2).
Proof.
  induction l1 as [|x l1 IH]; [done|]. intros _.
  destruct l1 as [|y l1]; [done|].
  change ((x :: y :: l1) ++ l2) with (x :: y :: (l1 ++ l2)).
  rewrite !join_cons_cons.
  change (y :: l1 ++ l2) with ((y :: l1) ++ l2). rewrite IH by done.
  destruct l2 as [|z l2]; [done|].
  rewrite !join_cons_cons. by rewrite !string_app_assoc.
Qed.

(** X4.  The stored value only grows, and only at its end: if the key held
    [v] before a run, of whatever kind, then after the run it holds [v]
    followed by zero or more keys, each preceded by a comma, and each the
    key of an entry that passes the link and title rules.  Nothing stored
    is ever removed, reordered or rewritten. *)
Theorem X4_store_only_grows (env : Env) (w : World) (s : State) (v : string) :
  kv s !! PROCESSED_ENTRIES_KV_KEY env = Some v ->
  exists added,
    kv (after env w s) !! PROCESSED_ENTRIES_KV_KEY env = Some (Js.join "," (v :: added))
    /\ forall k, k ∈ added -> exists e, relevant env e = true /\ k = entryUniqueKey e.
Proof.
  intros Hv.
  destruct (run_cases env w s) as [[feed Hc]|(Hkv & _)].
  2:{ exists []. rewrite Hkv. split; [done|]. by intros k ?%elem_of_nil. }
  destruct (sieve_final env (clock w) feed (stored_list env s) (ticks s))
    as (added & E & Hadded & _).
  exists added. split.
  - rewrite (kv_after_complete env w s feed Hc). unfold written, final_of. rewrite E.
    assert (Hs : stored_list env s = Js.split "," v) by (unfold stored_list; by rewrite Hv).
    destruct (split_cons "," v) as (x & xs & Ex).
    rewrite bool_decide_eq_true_2 by (rewrite Hs, Ex; simpl; lia).
    rewrite lookup_insert_eq. f_equal.
    rewrite join_app_chunk by (rewrite Hs, Ex; done).
    by rewrite Hs, (join_split "," v).
  - intros k Hk. rewrite Forall_forall in Hadded. specialize (Hadded k Hk).
    apply list_elem_of_fmap in Hadded as (e & -> & [He _]%list_elem_of_filter). eauto.
Qed.

Lemma X4_witness :
  kv (Sample.state_with "7-1,,x") !! PROCESSED_ENTRIES_KV_KEY Sample.env = Some "7-1,,x"
  /\ kv (after Sample.env
           (Sample.world true true [Sample.entry42] Sample.maintenance_page
              Sample.ten_minutes_later)
           (Sample.state_with "7-1,,x")) !! PROCESSED_ENTRIES_KV_KEY Sample.env
     = Some "7-1,,x,42-1000000000"
  /\ exists added,
       kv (after Sample.env
             (Sample.world true true [Sample.entry42] Sample.maintenance_page
                Sample.ten_minutes_later)
             (Sample.state_with "7-1,,x")) !! PROCESSED_ENTRIES_KV_KEY Sample.env
       = Some (Js.join "," ("7-1,,x" :: added)).
Proof.
  assert (H : kv (Sample.state_with "7-1,,x") !! PROCESSED_ENTRIES_KV_KEY Sample.env
              = Some "7-1,,x") by (vm_compute; reflexivity).
  split; [exact H|]. split; [vm_compute; reflexivity|].
  destruct (X4_store_only_grows Sample.env
              (Sample.world true true [Sample.entry42] Sample.maintenance_page
                 Sample.ten_minutes_later)
              (Sample.state_with "7-1,,x") "7-1,,x" H) as (added & Hadded & _).
  exists added. exact Hadded.
Defined.

(** X5.  With TEST_MODE off, when the key of every entry of the feed that
    passes the link and title rules is already in the stored list (a feed
    without such entries included), a run that passes the probes and parses
    the feed returns the empty list, fetches no detail page, submits
    nothing, and still writes the store once: it puts back the very value it
    read, or deletes the key that was absent.  The store is unchanged. *)
Theorem X5_nothing_new_rewrites_same_value (env : Env) (w : World) (s : State)
    (feed : list FeedEntry) :
  TEST_MODE env = false ->
  completes env w feed ->
  (forall e, e ∈ feed -> relevant env e = true -> entryUniqueKey e ∈ stored_list env s) ->
  outcome env w s = Ok (Some [])
  /\ kv (after env w s) = kv s
  /\ events env w s =
     [EvHead (SERVICE_ROOT env); EvHead (STATUS_PAGE_HOST env);
      EvKvGet (PROCESSED_ENTRIES_KV_KEY env);
      EvParse (STATUS_PAGE_HOST env +:+ "/feed");
      match kv s !! PROCESSED_ENTRIES_KV_KEY env with
      | Some v => EvKvPut (PROCESSED_ENTRIES_KV_KEY env) v
      | None => EvKvDelete (PROCESSED_ENTRIES_KV_KEY env)
      end].
Proof.
  intros HT Hc Hall.
  assert (Hs : sieve env (clock w) (stored_list env s) (ticks s) feed
               = ([], stored_list env s, ticks s)).
  { apply sieve_all_seen; [done|]. intros k Hk.
    apply list_elem_of_fmap in Hk as (e & -> & [He Hin]%list_elem_of_filter).
    by apply Hall. }
  rewrite (outcome_complete env w s feed Hc), (kv_after_complete env w s feed Hc),
    (events_complete env w s feed Hc).
  unfold final_of, kept_of. rewrite Hs. cbn [fst snd fmap list_fmap concat all_fulfilled].
  split; [done|]. split; [apply written_stored|]. rewrite app_nil_r.
  do 4 f_equal. unfold write_event, stored_list.
  destruct (kv s !! PROCESSED_ENTRIES_KV_KEY env) as [v|]; cbn [read_back].
  - destruct (split_cons "," v) as (x & xs & Ex).
    rewrite bool_decide_eq_true_2 by (rewrite Ex; simpl; lia).
    by rewrite (join_split "," v).
  - by rewrite bool_decide_eq_false_2 by (simpl; lia).
Qed.

Lemma X5_witness :
  TEST_MODE Sample.env = false
  /\ completes Sample.env
       (Sample.world true true [Sample.entry42; Sample.entry_root] Sample.maintenance_page
          Sample.ten_minutes_later)
       [Sample.entry42; Sample.entry_root]
  /\ events Sample.env
       (Sample.world true true [Sample.entry42; Sample.entry_root] Sample.maintenance_page
          Sample.ten_minutes_later)
       (Sample.state_with "7-1,42-1000000000")
     = [EvHead "https://mi.example/"; EvHead "https://status.example";
        EvKvGet "processed-entries"; EvParse "https://status.example/feed";
        EvKvPut "processed-entries" "7-1,42-1000000000"].
Proof.
  assert (HT : TEST_MODE Sample.env = false) by reflexivity.
  assert (Hc : completes Sample.env
       (Sample.world true true [Sample.entry42; Sample.entry_root] Sample.maintenance_page
          Sample.ten_minutes_later)
       [Sample.entry42; Sample.entry_root]) by (repeat split; reflexivity).
  split; [exact HT|]. split; [exact Hc|].
  destruct (X5_nothing_new_rewrites_same_value Sample.env _
              (Sample.state_with "7-1,42-1000000000") _ HT Hc) as (_ & _ & ->).
  - intros e He Hrel.
    replace (stored_list Sample.env (Sample.state_with "7-1,42-1000000000"))
      with ["7-1"; "42-1000000000"] by (vm_compute; reflexivity).
    apply elem_of_cons in He as [->|He].
    + apply list_elem_of_further, list_elem_of_here.
    + apply list_elem_of_singleton in He as ->. discriminate Hrel.
  - vm_compute. reflexivity.
Defined.

(** ** Delivery *)

Lemma after_no_feed (env : Env) (w : World) (s : State) :
  head_ok w (SERVICE_ROOT env) = Some true ->
  head_ok w (STATUS_PAGE_HOST env) = Some true ->
  rss_items w (STATUS_PAGE_HOST env +:+ "/feed") = None ->
  after env w s = set_heap (insert (fresh (dom (heap s))) (stored_list env s)) s.
Proof.
  intros H1 H2 H3. unfold after, run.
  unfold fetch_head, parse, settle, kv_get, array_new. monad_unfold.
  rewrite H1. cbn [negb]. rewrite H2. cbn [negb]. rewrite H3. done.
Qed.

Lemma sieve_ext (env : Env) (clk1 clk2 : nat -> Z) (feed : list FeedEntry) :
  (forall k, clk1 k = clk2 k) ->
  forall arr t, sieve env clk1 arr t feed = sieve env clk2 arr t feed.
Proof.
  intros Hclk. induction feed as [|e rest IH]; intros arr t; [done|].
  cbn [sieve]. by rewrite !IH, Hclk.
Qed.

(** X6.  The state a run ends in, the store included, does not depend on
    the detail pages or on the notes API: the store is written before
    delivery starts, so a run whose delivery fails has marked the entries as
    processed exactly as a run whose delivery succeeds. *)
Theorem X6_state_independent_of_delivery (env : Env) (w1 w2 : World) (s : State) :
  same_intake w1 w2 ->
  after env w1 s = after env w2 s.
Proof.
  intros (Hh & Hr & Hclk).
  destruct (decide (head_ok w1 (SERVICE_ROOT env) = Some true
                    /\ head_ok w1 (STATUS_PAGE_HOST env) = Some true)) as [[H1 H2]|Hnot].
  2:{ destruct (run_stopped_at_probe env w1 w1 s eq_refl Hnot) as (_ & -> & _).
      rewrite !Hh in Hnot.
      by destruct (run_stopped_at_probe env w2 w2 s eq_refl Hnot) as (_ & -> & _). }
  destruct (rss_items w1 (STATUS_PAGE_HOST env +:+ "/feed")) as [feed|] eqn:H3.
  - rewrite (after_complete env w1 s feed) by done.
    rewrite (after_complete env w2 s feed)
      by (unfold completes; by rewrite <- !Hh, <- Hr).
    unfold final_of. by rewrite (sieve_ext env (clock w1) (clock w2) feed Hclk).
  - rewrite (after_no_feed env w1 s H1 H2 H3).
    rewrite (after_no_feed env w2 s); [done|by rewrite <- Hh..|by rewrite <- Hr].
Qed.

Lemma X6_witness :
  same_intake (Faults.api_rejects [Sample.entry42] Sample.ten_minutes_later)
    (Sample.world true true [Sample.entry42] Sample.maintenance_page Sample.ten_minutes_later)
  /\ outcome Sample.env (Faults.api_rejects [Sample.entry42] Sample.ten_minutes_later)
       Sample.fresh_state = Throw
  /\ after Sample.env (Faults.api_rejects [Sample.entry42] Sample.ten_minutes_later)
       Sample.fresh_state
     = after Sample.env
         (Sample.world true true [Sample.entry42] Sample.maintenance_page
            Sample.ten_minutes_later)
         Sample.fresh_state.
Proof.
  assert (H : same_intake (Faults.api_rejects [Sample.entry42] Sample.ten_minutes_later)
    (Sample.world true true [Sample.entry42] Sample.maintenance_page
       Sample.ten_minutes_later)).
  { repeat split. intros url. unfold Faults.api_rejects, Sample.world. cbn [head_ok].
    by case_bool_decide. }
  split; [exact H|]. split; [vm_compute; reflexivity|].
  exact (X6_state_independent_of_delivery Sample.env _ _ Sample.fresh_state H).
Defined.




Lemma sieve_kept_sublist (env : Env) (clk : nat -> Z) (feed : list FeedEntry) :
  forall arr t, (sieve env clk arr t feed).1.1 `sublist_of` feed.
Proof.
  induction feed as [|e rest IH]; intros arr t; [done|].
  cbn [sieve]. destruct (negb (relevant env e)); [by apply sublist_cons|].
  destruct (TEST_MODE env).
  { specialize (IH arr t). destruct (sieve env clk arr t rest) as [[k a] t'].
    by apply sublist_skip. }
  case_bool_decide; [by apply sublist_cons|].
  specialize (IH (arr ++ [entryUniqueKey e]) (S t)).
  destruct (sieve env clk (arr ++ [entryUniqueKey e]) (S t) rest) as [[k a] t'].
  cbn [fst] in *. case_bool_decide; [by apply sublist_cons|by apply sublist_skip].
Qed.

Lemma built_sublist_kept (w : World) (k : list FeedEntry) :
  (fst <$> omap (fun e => (fun m => (e, m)) <$> message w e) k) `sublist_of` k.
Proof.
  induction k as [|e k IH]; [done|]. cbn [omap list_omap].
  destruct (message w e); cbn [fmap option_fmap option_map].
  - rewrite fmap_cons. by apply sublist_skip.
  - by apply sublist_cons.
Qed.

(** X8.  No entry is notified more often than it occurs in the feed: in a
    run that parses [feed], and in whatever order the effects of the
    callbacks are interleaved, the entries a message is built for, and the
    entries submitted, each form a sub-multiset of [feed]. *)
Theorem X8_notified_no_more_than_in_feed (env : Env) (w : World) (s : State)
    (feed : list FeedEntry) :
  completes env w feed ->
  forall evs,
    evs ≡ₚ events env w s ->
    (fst <$> composed evs) ⊆+ feed /\ posted evs ⊆+ feed.
Proof.
  intros Hc evs Hevs.
  assert (Hb : (fst <$> composed (events env w s)) `sublist_of` feed).
  { rewrite (composed_complete env w s feed Hc).
    etrans; [apply built_sublist_kept|apply sieve_kept_sublist]. }
  assert (Hp : posted (events env w s) `sublist_of` feed).
  { rewrite posted_submitted, (submitted_complete env w s feed Hc).
    destruct (TEST_MODE env); [apply sublist_nil_l|exact Hb]. }
  unfold composed, posted in *. rewrite Hevs.
  split; by apply sublist_submseteq.
Qed.

Lemma X8_witness :
  completes Sample.env
    (Sample.world true true [Faults.entry43; Sample.entry_root; Sample.entry42]
       Sample.maintenance_page Sample.ten_minutes_later)
    [Faults.entry43; Sample.entry_root; Sample.entry42]
  /\ posted (events Sample.env
               (Sample.world true true [Faults.entry43; Sample.entry_root; Sample.entry42]
                  Sample.maintenance_page Sample.ten_minutes_later)
               Sample.fresh_state)
     ⊆+ [Faults.entry43; Sample.entry_root; Sample.entry42].
Proof.
  assert (Hc : completes Sample.env
    (Sample.world true true [Faults.entry43; Sample.entry_root; Sample.entry42]
       Sample.maintenance_page Sample.ten_minutes_later)
    [Faults.entry43; Sample.entry_root; Sample.entry42]) by (repeat split; reflexivity).
  split; [exact Hc|].
  exact (proj2 (X8_notified_no_more_than_in_feed Sample.env _ Sample.fresh_state _ Hc
                  _ (Permutation_refl _))).
Defined.

(** ** The dedup key *)

Lemma uint_no_hyphen (d : Decimal.uint) : has_char "-" (NilEmpty.string_of_uint d) = false.
Proof. induction d; simpl; done. Qed.

Lemma number_to_string_no_hyphen (n : Z) :
  0 <= n -> has_char "-" (Js.number_to_string n) = false.
Proof.
  intros Hn. unfold Js.number_to_string.
  destruct n as [|p|p]; [done| |lia].
  cbn [Z.to_int NilZero.string_of_int]. unfold NilZero.string_of_uint.
  destruct (Pos.to_uint p); [reflexivity|apply uint_no_hyphen..].
Qed.

(** Printing a number loses nothing. *)
Lemma number_to_string_inj (a b : Z) :
  Js.number_to_string a = Js.number_to_string b -> a = b.
Proof.
  unfold Js.number_to_string. intros H.
  assert (Hn : forall n, NilZero.int_of_string (NilZero.string_of_int (Z.to_int n))
                         = Some (Z.to_int n)).
  { intros n. apply NilZero.isi; destruct n; simpl; try discriminate;
      intros [= Hp]; by apply Unsigned.to_uint_nonnil in Hp. }
  apply to_int_inj. apply (f_equal NilZero.int_of_string) in H.
  rewrite !Hn in H. by injection H.
Qed.

(** A string is cut in one way only at its last occurrence of [c]. *)
Lemma cut_at_last (c : ascii) (x y : string) :
  has_char c x = false -> has_char c y = false ->
  forall a b, a +:+ String c x = b +:+ String c y -> a = b /\ x = y.
Proof.
  intros Hx Hy. induction a as [|d a IH]; intros b Hab.
  - destruct b as [|d' b]; [by injection Hab|].
    injection Hab as -> ->. rewrite has_char_append in Hx. simpl in Hx.
    rewrite Ascii.eqb_refl in Hx. simpl in Hx. by rewrite orb_true_r in Hx.
  - destruct b as [|d' b].
    + injection Hab as -> <-. rewrite has_char_append in Hy. simpl in Hy.
      rewrite Ascii.eqb_refl in Hy. simpl in Hy. by rewrite orb_true_r in Hy.
    + injection Hab as -> Hab. destruct (IH b Hab) as [-> ->]. done.
Qed.

(** X9.  For entries published at or after the epoch, the dedup key
    identifies the pair of the last path segment of the link and the
    publication time: two such entries have the same key exactly when they
    agree on both.  Entries whose links differ only before the last slash
    therefore share their key. *)
Theorem X9_key_identifies_segment_and_time (e1 e2 : FeedEntry) :
  0 <= published e1 -> 0 <= published e2 ->
  entryUniqueKey e1 = entryUniqueKey e2
  <-> entryId e1 = entryId e2 /\ published e1 = published e2.
Proof.
  intros H1 H2. unfold entryUniqueKey. fold (entryId e1) (entryId e2). split.
  - intros Hk.
    apply (cut_at_last "-") in Hk as [Hid Hn];
      [|by apply number_to_string_no_hyphen..].
    split; [done|]. by apply number_to_string_inj.
  - by intros [-> ->].
Qed.

Lemma X9_witness :
  0 <= published Sample.entry42 /\ 0 <= published Sample.entry42_again
  /\ entryUniqueKey Sample.entry42 = entryUniqueKey Sample.entry42_again
  /\ link Sample.entry42 <> link Sample.entry42_again
  /\ entryId Sample.entry42 = entryId Sample.entry42_again.
Proof.
  assert (H1 : 0 <= published Sample.entry42) by (vm_compute; discriminate).
  assert (H2 : 0 <= published Sample.entry42_again) by (vm_compute; discriminate).
  split; [exact H1|]. split; [exact H2|].
  assert (Hk : entryUniqueKey Sample.entry42 = entryUniqueKey Sample.entry42_again)
    by (vm_compute; reflexivity).
  split; [exact Hk|]. split; [vm_compute; discriminate|].
  exact (proj1 (proj1 (X9_key_identifies_segment_and_time _ _ H1 H2) Hk)).
Defined.

(** Before the epoch the hyphen of the sign blurs the cut: these two
    entries differ in segment and time and share the key [a--5]. *)
Example key_collision_before_epoch :
  entryUniqueKey {| title := "t"; description := "d"; link := "https://s/a-"; published := 5 |}
  = entryUniqueKey {| title := "t"; description := "d"; link := "https://s/a"; published := -5 |}.
Proof. reflexivity. Qed.

(** The segment after the last separator: it holds no separator, and the
    string is the segment alone or something, the separator, the segment. *)
Lemma last_segment (c : ascii) (s : string) :
  exists seg,
    last (Js.split c s) = Some seg
    /\ has_char c seg = false
    /\ (s = seg \/ exists p, s = p +:+ String c seg).
Proof.
  induction s as [|a s IH].
  { exists EmptyString. simpl. auto. }
  destruct IH as (seg & Hlast & Hseg & Hs).
  destruct (split_cons c s) as (w & ws & E).
  cbn [Js.split]. destruct (Ascii.eqb_spec a c) as [->|Hne].
  - exists seg. rewrite E in *. split; [by rewrite last_cons_cons|]. split; [done|].
    right. destruct Hs as [->|[p ->]]; [by exists EmptyString|by exists (String c p)].
  - rewrite E in *. destruct ws as [|w' ws].
    + exists (String a w). simpl in Hlast. injection Hlast as <-.
      split; [done|]. split.
      { simpl. rewrite Hseg. by destruct (Ascii.eqb_spec a c). }
      left. f_equal. rewrite <- (join_split c s), E. done.
    + exists seg. split.
      { by rewrite last_cons_cons in *. }
      split; [done|]. right. destruct Hs as [->|[p ->]].
      * rewrite split_one in E by done. discriminate.
      * by exists (String a p).
Qed.

(** X10.  The part of the link the key is built from is what follows the
    last slash of the link, the whole link when it has no slash: it holds
    no slash, it is never [undefined], and a link that ends in a slash gives
    the empty segment, so that its key is the hyphen and the time alone. *)
Theorem X10_entryId_follows_last_slash (e : FeedEntry) :
  Js.pop (Js.split "/" (link e)) = Some (entryId e)
  /\ has_char "/" (entryId e) = false
  /\ (link e = entryId e \/ exists p, link e = p +:+ "/" +:+ entryId e)
  /\ (forall p, link e = p +:+ "/" ->
                entryUniqueKey e = "-" +:+ Js.number_to_string (published e)).
Proof.
  destruct (last_segment "/" (link e)) as (seg & Hlast & Hseg & Hs).
  assert (Hid : entryId e = seg) by (unfold entryId, Js.pop; by rewrite Hlast).
  rewrite Hid. split; [done|]. split; [done|]. split; [done|].
  intros p Hp. unfold entryUniqueKey. fold (entryId e). rewrite Hid.
  destruct Hs as [Hs|[q Hs]].
  - rewrite Hs in Hp. rewrite Hp, has_char_append in Hseg.
    simpl in Hseg. by rewrite orb_true_r in Hseg.
  - rewrite Hp in Hs.
    apply (cut_at_last "/" EmptyString seg eq_refl Hseg) in Hs as [_ <-]. done.
Qed.

(** ** The doctype workaround *)

Lemma replace_unfold (pat by_ s : string) :
  Js.replace pat by_ s =
  if Js.startsWith s pat
  then by_ +:+ String.substring (String.length pat)
                 (String.length s - String.length pat)%nat s
  else match s with
       | EmptyString => EmptyString
       | String c s' => String c (Js.replace pat by_ s')
       end.
Proof. by destruct s. Qed.

Lemma substring_all (s : string) : String.substring 0 (String.length s) s = s.
Proof. induction s as [|c s IH]; [done|]. simpl. by rewrite IH. Qed.

Lemma substring_after (p r : string) :
  String.substring (String.length p)
    (String.length (p +:+ r) - String.length p)%nat (p +:+ r) = r.
Proof.
  induction p as [|c p IH].
  - simpl. rewrite Nat.sub_0_r. apply substring_all.
  - exact IH.
Qed.

(** X11.  The string replacement that removes the doctype touches the
    first occurrence only: a text in which the pattern does not occur is
    returned as it is, and a text that starts with the pattern loses that
    one copy, whatever follows, later copies included. *)
Theorem X11_replace_first_occurrence (pat by_ : string) :
  (forall s, Js.includes s pat = false -> Js.replace pat by_ s = s)
  /\ (forall rest, Js.replace pat by_ (pat +:+ rest) = by_ +:+ rest).
Proof.
  split.
  - induction s as [|c s IH]; cbn [Js.includes]; intros [Hs Hi]%orb_false_elim;
      rewrite replace_unfold, Hs; [done|]. by rewrite IH.
  - intros rest. rewrite replace_unfold.
    rewrite (proj2 (startsWith_spec pat (pat +:+ rest))) by eauto.
    by rewrite substring_after.
Qed.

(** ** The handlers *)

(** In test mode no run, of whatever kind, changes the store or submits. *)
Lemma test_mode_run_is_quiet (env : Env) (w : World) (s : State) :
  TEST_MODE env = true ->
  kv (after env w s) = kv s /\ posted (events env w s) = [].
Proof.
  intros HT. destruct (run_cases env w s) as [[feed Hc]|(? & ? & _)]; [|done].
  rewrite (kv_after_complete env w s feed Hc), (posted_complete env w s feed Hc), HT.
  unfold final_of. rewrite sieve_test_mode by done. split; [apply written_stored|done].
Qed.

Lemma fetch_handler_run (env : Env) (w : World) (s : State) :
  ALLOW_EXEC_VIA_HTTP env = true ->
  (fetch_handler env w "/test-run" s).1.2 = after env w s
  /\ (fetch_handler env w "/test-run" s).2 = events env w s
  /\ (fetch_handler env w "/test-run" s).1.1
     = match outcome env w s with
       | Ok r => Ok (ResponseJson r)
       | Throw => Throw
       end.
Proof.
  intros HA. unfold fetch_handler, after, events, outcome. rewrite HA.
  rewrite bool_decide_eq_true_2 by done. cbn [andb]. monad_unfold.
  destruct (run env w s) as [[[r|] s'] ev]; cbn [fst snd]; by rewrite ?app_nil_r.
Qed.

(** X12.  What an HTTP request can do.  With the trigger flag off, or for
    any path other than [/test-run], the handler answers the liveness text
    and does nothing else: no probe, no access to the store, no note.  And
    with TEST_MODE on no request, whatever its path and whatever the flag,
    changes the store or submits a note. *)
Theorem X12_http_request_effects (env : Env) (w : World) (pathname : string) (s : State) :
  (ALLOW_EXEC_VIA_HTTP env = false \/ pathname <> "/test-run" ->
   fetch_handler env w pathname s
   = (Ok (ResponseText "The bot is alive." "text/plain"), s, []))
  /\ (TEST_MODE env = true ->
      kv (fetch_handler env w pathname s).1.2 = kv s
      /\ posted (fetch_handler env w pathname s).2 = []).
Proof.
  assert (Hoff : ALLOW_EXEC_VIA_HTTP env = false \/ pathname <> "/test-run" ->
   fetch_handler env w pathname s
   = (Ok (ResponseText "The bot is alive." "text/plain"), s, [])).
  { intros [HA|Hp]; unfold fetch_handler.
    - by rewrite HA, andb_false_r.
    - by rewrite bool_decide_eq_false_2. }
  split; [exact Hoff|]. intros HT.
  destruct (ALLOW_EXEC_VIA_HTTP env) eqn:HA; [|by rewrite Hoff by auto].
  destruct (decide (pathname = "/test-run")) as [->|Hp]; [|by rewrite Hoff by auto].
  destruct (fetch_handler_run env w s HA) as (-> & -> & _).
  by apply test_mode_run_is_quiet.
Qed.

Lemma X12_witness :
  ALLOW_EXEC_VIA_HTTP Sample.env = false
  /\ TEST_MODE Sample.env_test = true
  /\ fetch_handler Sample.env
       (Sample.world true true [Sample.entry42] Sample.maintenance_page
          Sample.ten_minutes_later)
       "/test-run" Sample.fresh_state
     = (Ok (ResponseText "The bot is alive." "text/plain"), Sample.fresh_state, [])
  /\ kv (fetch_handler Sample.env_test
           (Sample.world true true [Sample.entry42] Sample.maintenance_page
              Sample.ten_minutes_later)
           "/test-run" Sample.fresh_state).1.2 = kv Sample.fresh_state.
Proof.
  assert (HA : ALLOW_EXEC_VIA_HTTP Sample.env = false) by reflexivity.
  assert (HT : TEST_MODE Sample.env_test = true) by reflexivity.
  split; [exact HA|]. split; [exact HT|]. split.
  - exact (proj1 (X12_http_request_effects Sample.env _ "/test-run" Sample.fresh_state)
             (or_introl HA)).
  - exact (proj1 (proj2 (X12_http_request_effects Sample.env_test _ "/test-run"
                           Sample.fresh_state) HT)).
Defined.

Lemma scheduled_run (inspect : option (list string) -> string)
    (env : Env) (w : World) (s : State) :
  scheduled inspect env w s
  = match outcome env w s with
    | Ok r => (Ok tt, after env w s, events env w s ++ [EvLog (inspect r)])
    | Throw => (Throw, after env w s, events env w s)
    end.
Proof.
  unfold scheduled, outcome, after, events, console_log, emit. monad_unfold.
  by destruct (run env w s) as [[[r|] s'] ev].
Qed.

(** X13.  The two triggers do the same work.  With the trigger flag on, the
    scheduled handler and a request to [/test-run] leave the same state,
    submit the same notes, and reject in the same cases, namely those in
    which [run] rejects; the scheduled handler logs the result of [run] once
    more than the request does. *)
Theorem X13_triggers_agree (inspect : option (list string) -> string)
    (env : Env) (w : World) (s : State) :
  ALLOW_EXEC_VIA_HTTP env = true ->
  (scheduled inspect env w s).1.2 = (fetch_handler env w "/test-run" s).1.2
  /\ submitted (scheduled inspect env w s).2
     = submitted (fetch_handler env w "/test-run" s).2
  /\ ((scheduled inspect env w s).1.1 = Throw
      <-> (fetch_handler env w "/test-run" s).1.1 = Throw)
  /\ ((scheduled inspect env w s).1.1 = Throw <-> outcome env w s = Throw)
  /\ (forall r, outcome env w s = Ok r ->
                (scheduled inspect env w s).2
                = (fetch_handler env w "/test-run" s).2 ++ [EvLog (inspect r)]).
Proof.
  intros HA. destruct (fetch_handler_run env w s HA) as (-> & -> & ->).
  rewrite scheduled_run.
  destruct (outcome env w s) as [r|]; cbn [fst snd].
  - split; [done|]. split.
    { unfold submitted. rewrite omap_app. cbn [omap list_omap]. by rewrite app_nil_r. }
    split; [done|]. split; [done|]. by intros r' [= <-].
  - done.
Qed.

Lemma X13_witness :
  ALLOW_EXEC_VIA_HTTP Sample.env_test = true
  /\ (scheduled (fun _ => "result") Sample.env_test
        (Sample.world true true [Sample.entry42] Sample.maintenance_page
           Sample.ten_minutes_later)
        Sample.fresh_state).1.2
     = (fetch_handler Sample.env_test
          (Sample.world true true [Sample.entry42] Sample.maintenance_page
             Sample.ten_minutes_later)
          "/test-run" Sample.fresh_state).1.2.
Proof.
  assert (HA : ALLOW_EXEC_VIA_HTTP Sample.env_test = true) by reflexivity.
  split; [exact HA|].
  exact (proj1 (X13_triggers_agree (fun _ => "result") Sample.env_test _
                  Sample.fresh_state HA)).
Defined.

(** X14.  A probe that answers not-ok is no error for the scheduler: the
    scheduled handler resolves, the state is as before, and the log holds
    the probes, the line about the failed connection and the printed
    [undefined] that [run] returned. *)
Theorem X14_scheduled_survives_failed_probe (inspect : option (list string) -> string)
    (env : Env) (w : World) (s : State) :
  head_ok w (SERVICE_ROOT env) = Some false
  \/ (head_ok w (SERVICE_ROOT env) = Some true
      /\ head_ok w (STATUS_PAGE_HOST env) = Some false) ->
  (scheduled inspect env w s).1.1 = Ok tt
  /\ (scheduled inspect env w s).1.2 = s
  /\ ((scheduled inspect env w s).2 =
        [EvHead (SERVICE_ROOT env);
         EvLog (SERVICE_NAME env +:+ "に接続できませんでした。");
         EvLog (inspect None)]
      \/ (scheduled inspect env w s).2 =
        [EvHead (SERVICE_ROOT env); EvHead (STATUS_PAGE_HOST env);
         EvLog "ステータスページに接続できませんでした。";
         EvLog (inspect None)]).
Proof.
  intros H. rewrite scheduled_run. unfold outcome, after, events.
  destruct H as [H1|[H1 H2]].
  - rewrite (run_service_down env w s H1). cbn. auto.
  - rewrite (run_status_page_down env w s H1 H2). cbn. auto.
Qed.

Lemma X14_witness :
  (head_ok (Sample.world false true [Sample.entry42] Sample.maintenance_page 0)
           (SERVICE_ROOT Sample.env) = Some false
   \/ (head_ok (Sample.world false true [Sample.entry42] Sample.maintenance_page 0)
               (SERVICE_ROOT Sample.env) = Some true
       /\ head_ok (Sample.world false true [Sample.entry42] Sample.maintenance_page 0)
                  (STATUS_PAGE_HOST Sample.env) = Some false))
  /\ (scheduled (fun _ => "undefined") Sample.env
        (Sample.world false true [Sample.entry42] Sample.maintenance_page 0)
        (Sample.state_with "7-1")).1.1 = Ok tt.
Proof.
  assert (H : head_ok (Sample.world false true [Sample.entry42] Sample.maintenance_page 0)
                (SERVICE_ROOT Sample.env) = Some false) by reflexivity.
  split; [left; exact H|].
  exact (proj1 (X14_scheduled_survives_failed_probe (fun _ => "undefined") Sample.env _
                  (Sample.state_with "7-1") (or_introl H))).
Defined.

(** ** The fetch wrapper *)

(** X15.  [cloudflareFetch] hands [fetch] the same input and an options
    object without [credentials] and without [cache], every other option
    being kept with its value; an absent options object stays absent; and
    applying the wrapper to its own output changes nothing more. *)
Theorem X15_cloudflareFetch_strips_two_options {V R : Type}
    (fetch : string -> option (gmap string V) -> R) (input : string)
    (init : option (gmap string V)) :
  (cloudflareFetch fetch input init).2 = fetch input (cloudflareFetch fetch input init).1
  /\ (forall m, init = Some m ->
        exists m', (cloudflareFetch fetch input init).1 = Some m'
                   /\ m' !! "credentials" = None /\ m' !! "cache" = None
                   /\ forall k, k <> "credentials" -> k <> "cache" -> m' !! k = m !! k)
  /\ (init = None -> (cloudflareFetch fetch input init).1 = None)
  /\ (cloudflareFetch fetch input (cloudflareFetch fetch input init).1).1
     = (cloudflareFetch fetch input init).1.
Proof.
  unfold cloudflareFetch. cbn [fst snd]. split; [done|]. split; [|split].
  - intros m ->. exists (delete "cache" (delete "credentials" m)).
    cbn [fmap option_fmap option_map]. split; [done|]. split; [|split].
    + by rewrite lookup_delete_ne, lookup_delete_eq.
    + by rewrite lookup_delete_eq.
    + intros k Hk1 Hk2. by rewrite !lookup_delete_ne.
  - by intros ->.
  - destruct init as [m|]; cbn [fmap option_fmap option_map]; [|done]. f_equal.
    apply map_eq. intros k. rewrite !lookup_delete. by repeat case_decide.
Qed.

(** ** The previous variant *)

Section PreviousVariant.

Variable inspect : list string -> string.
Variable env : Env.
Variable w : World.
Hypothesis same_key : PROCESSED_ENTRIES_KV_KEY env = Previous.PROCESSED_ENTRIES_KV_KEY.







End PreviousVariant.




(** ** Accesses to the store *)

Lemma kv_events_callbacks (env : Env) (w : World) (kept : list FeedEntry) :
  kv_events (concat (callback_events env w <$> kept)) = [].
Proof.
  unfold kv_events. induction kept as [|e kept IH]; [done|].
  rewrite fmap_cons. cbn [concat]. rewrite omap_app, IH, app_nil_r.
  unfold callback_events. destruct (message w e); [|done].
  by destruct (TEST_MODE env).
Qed.

(** X17.  A run reads the store at most once and writes it at most once,
    always under the configured key and always reading first: the accesses
    to the KV namespace are none at all (a probe stopped the run), one get
    (the feed could not be parsed), or one get followed by one put or one
    delete. *)
Theorem X17_one_read_one_write (env : Env) (w : World) (s : State) :
  kv_events (events env w s) = []
  \/ kv_events (events env w s) = [EvKvGet (PROCESSED_ENTRIES_KV_KEY env)]
  \/ (exists v, kv_events (events env w s)
                = [EvKvGet (PROCESSED_ENTRIES_KV_KEY env);
                   EvKvPut (PROCESSED_ENTRIES_KV_KEY env) v])
  \/ kv_events (events env w s)
     = [EvKvGet (PROCESSED_ENTRIES_KV_KEY env); EvKvDelete (PROCESSED_ENTRIES_KV_KEY env)].
Proof.
  destruct (decide (head_ok w (SERVICE_ROOT env) = Some true
                    /\ head_ok w (STATUS_PAGE_HOST env) = Some true)) as [[H1 H2]|Hnot].
  2:{ left. unfold events, run, fetch_head, settle, console_log, emit. monad_unfold.
      destruct (head_ok w (SERVICE_ROOT env)) as [[|]|]; cbn [negb]; [|done..].
      destruct (head_ok w (STATUS_PAGE_HOST env)) as [[|]|]; cbn [negb]; [|done..].
      by destruct Hnot. }
  destruct (rss_items w (STATUS_PAGE_HOST env +:+ "/feed")) as [feed|] eqn:H3.
  2:{ right. left.
      by rewrite (events_no_feed env w s H1 H2 H3). }
  assert (Hc : completes env w feed) by done.
  rewrite (events_complete env w s feed Hc). unfold kv_events at 1 2 3 4.
  rewrite omap_app. fold (kv_events (concat (callback_events env w <$> kept_of env w s feed))).
  rewrite kv_events_callbacks, app_nil_r. unfold write_event. cbn [omap list_omap].
  case_bool_decide; cbn; eauto.
Qed.
